(** * The search page of docusaurus-theme-search-typesense

    A shallow embedding of [src/theme/SearchPage/index.js]: the reducer
    that owns the search-result state, the handler of the helper's
    ['result'] event (result shaping included), [makeSearch], the
    intersection-observer callback and the effect that watches
    [lastPage].

    Conventions.
    - A JavaScript value that is either [null]/[undefined] or a value of
      one type is an [option]; [None] is the absent value.
    - Page numbers and counts are integers ([Z]); the only arithmetic the
      page does on them is [+ 1] and [>], after JavaScript's conversion of
      [null] to [0] ([to_number]).
    - A JavaScript object used as a dictionary is a [gmap] with string
      keys.
    - The search helper and the [URL] constructor are collaborators from
      outside the repository: the helper is observed through the calls
      made on it, up to the first one it refuses; the [URL] constructor is
      a variable of the section. *)

From Stdlib Require Import ZArith QArith DecimalString.
From stdpp Require Import base option list strings gmap.

Open Scope Z_scope.
Open Scope string_scope.
Open Scope list_scope.

(** ** JavaScript primitives used by the page *)

(** [ToNumber] on a nullable integer: [null] converts to [0]. *)
Definition to_number (v : option Z) : Z :=
  match v with
  | Some n => n
  | None => 0
  end.

(** Truthiness of a nullable string: [null], [undefined] and [''] are
    falsy. *)
Definition truthy (v : option string) : bool :=
  match v with
  | Some s => negb (String.eqb s "")
  | None => false
  end.

(** [a !== b] on nullable strings. *)
Definition strict_neq (a b : option string) : bool :=
  negb (bool_decide (a = b)).

(** ** Data model *)

Record ResultItem := {
  title : option string;          (* [undefined] when [titles.pop()] finds nothing *)
  url : string;
  summary : string;
  breadcrumbs : list string
}.

Record SearchResultState := {
  items : list ResultItem;
  query : option string;
  totalResults : option Z;
  totalPages : option Z;
  lastPage : option Z;
  hasMore : option bool;
  loading : option bool
}.

Definition initialSearchResultState : SearchResultState :=
  {| items := [];
     query := None;
     totalResults := None;
     totalPages := None;
     lastPage := None;
     hasMore := None;
     loading := None |}.

(** The objects handed to [searchResultStateDispatcher]: [{type, value}].
    [Unknown] stands for any [type] that the [switch] does not list. *)
Inductive action :=
  | Reset
  | Loading
  | Update (value : SearchResultState)
  | Advance
  | Unknown (type : string).

(** ** The reducer given to [useReducer]

    [searchQuery] is the live query the closure captures. *)
Definition reducer (searchQuery : string) (prevState : SearchResultState)
    (a : action) : SearchResultState :=
  match a with
  | Reset => initialSearchResultState
  | Loading =>
      {| items := items prevState;
         query := query prevState;
         totalResults := totalResults prevState;
         totalPages := totalPages prevState;
         lastPage := lastPage prevState;
         hasMore := hasMore prevState;
         loading := Some true |}
  | Update state =>
      if strict_neq (Some searchQuery) (query state) then prevState
      else
        {| items :=
             if bool_decide (lastPage state = Some 0)
             then items state
             else items prevState ++ items state;
           query := query state;
           totalResults := totalResults state;
           totalPages := totalPages state;
           lastPage := lastPage state;
           hasMore := hasMore state;
           loading := loading state |}
  | Advance =>
      let more :=
        to_number (totalPages prevState) >? to_number (lastPage prevState) + 1 in
      {| items := items prevState;
         query := query prevState;
         totalResults := totalResults prevState;
         totalPages := totalPages prevState;
         lastPage :=
           if more then Some (to_number (lastPage prevState) + 1)
           else lastPage prevState;
         hasMore := Some more;
         loading := loading prevState |}
  | Unknown _ => prevState
  end.

(** ** Result shaping *)

(** [s.replace(/pat/g, rep)] for a literal, non-empty [pat]: matches are
    found left to right and do not overlap.  [skip] counts the characters
    of the current match that are still to be dropped. *)
Fixpoint replace_from (pat rep s : string) (skip : nat) : string :=
  match s with
  | EmptyString => EmptyString
  | String c s' =>
      match skip with
      | S k => replace_from pat rep s' k
      | O =>
          if String.prefix pat s
          then rep +:+ replace_from pat rep s' (String.length pat - 1)
          else String c (replace_from pat rep s' 0)
      end
  end.

Definition replace_all (pat rep s : string) : string :=
  replace_from pat rep s 0.

Definition dquote : string := String (Ascii.ascii_of_nat 34) EmptyString.

Definition highlightPreTag : string := "<algolia-docsearch-suggestion--highlight>".
Definition highlightPostTag : string := "</algolia-docsearch-suggestion--highlight>".
Definition spanOpen : string :=
  "<span class=" +:+ dquote +:+ "search-result-match" +:+ dquote +:+ ">".
Definition spanClose : string := "</span>".

Definition sanitizeValue (value : string) : string :=
  replace_all highlightPostTag spanClose
    (replace_all highlightPreTag spanOpen value).

(** What [new URL(url)] exposes; [search] is the query string, [hash] the
    fragment with its [#]. *)
Record URL := {
  pathname : string;
  search : string;
  hash : string
}.

(** An entry of [_highlightResult] or of [_snippetResult]: an object with a
    [value]. *)
Record highlight := { value : string }.

Record snippetResult := { content : option highlight }.

Record hit := {
  hit_url : string;
  _highlightResult : gmap string highlight;
  _snippetResult : option snippetResult   (* [undefined] takes the default [{}] *)
}.

(** The template literal [`hierarchy.lvl${lvl}`]. *)
Definition level_key (lvl : nat) : string :=
  "hierarchy.lvl" +:+ NilEmpty.string_of_uint (Nat.to_uint lvl).

Definition levels : list nat := [0; 1; 2; 3; 4; 5; 6]%nat.

(** The callback of [[0, ..., 6].map]: the sanitized value, or [null]. *)
Definition level_title (h : hit) (lvl : nat) : option string :=
  match _highlightResult h !! level_key lvl with
  | Some highlightResult => Some (sanitizeValue (value highlightResult))
  | None => None
  end.

(** [.filter(v => v)] on an array of nullable strings. *)
Definition filter_truthy (l : list (option string)) : list string :=
  omap (fun v => if truthy v then v else None) l.

Definition titles (h : hit) : list string :=
  filter_truthy (level_title h <$> levels).

(** The text of hierarchy level [lvl] of a hit when the level is present
    and not the empty string: a non-empty level. *)
Definition nonempty_level (h : hit) (lvl : nat) : option string :=
  match _highlightResult h !! level_key lvl with
  | Some highlightResult =>
      if String.eqb (value highlightResult) "" then None
      else Some (value highlightResult)
  | None => None
  end.

Definition summary_of (snippet : snippetResult) : string :=
  match content snippet with
  | Some c => sanitizeValue (value c) +:+ "..."
  | None => ""
  end.

Section ResultHandler.

(** The [URL] constructor; [None] when it throws on an invalid URL. *)
Variable new_URL : string -> option URL.

(** The callback of [hits.map].  [titles.pop()] returns the last title
    and leaves the others in [titles], which become the breadcrumbs. *)
Definition shape_hit (h : hit) : option ResultItem :=
  match new_URL (hit_url h) with
  | None => None
  | Some u =>
      let snippet := default {| content := None |} (_snippetResult h) in
      Some {| title := last (titles h);
              url := pathname u +:+ hash u;
              summary := summary_of snippet;
              breadcrumbs := removelast (titles h) |}
  end.

(** The [results] of a ['result'] event.  [hits] is [None] when the field
    is not an array. *)
Record results := {
  r_query : string;
  hits : option (list hit);
  page : Z;
  nbHits : Z;
  nbPages : Z
}.

(** [hits instanceof Array] *)
Definition instanceof_Array (hs : option (list hit)) : bool :=
  match hs with
  | Some _ => true
  | None => false
  end.

(** The handler of the helper's ['result'] event: the action it
    dispatches, or [None] when shaping a hit throws. *)
Definition on_result (r : results) : option action :=
  if String.eqb (r_query r) "" || negb (instanceof_Array (hits r))
  then Some Reset
  else
    match mapM shape_hit (default [] (hits r)) with
    | None => None
    | Some its =>
        Some (Update
          {| items := its;
             query := Some (r_query r);
             totalResults := Some (nbHits r);
             totalPages := Some (nbPages r);
             lastPage := Some (page r);
             hasMore := Some (nbPages r >? page r + 1);
             loading := Some false |})
    end.

End ResultHandler.

(** ** [makeSearch] and the calls it makes on the search helper

    The helper comes from [algoliasearch-helper]; what the page does with
    it is the sequence of method calls it makes.  The helper throws on a
    disjunctive refinement of a facet that is not among the
    [disjunctiveFacets] it was created with; the statements after a call
    that throws are not reached. *)

Inductive helper_call :=
  | AddDisjunctiveFacetRefinement (facet value : string)
  | SetQuery (q : string)
  | SetPage (p : Z)
  | Search.

(** The [disjunctiveFacets] option [algoliaSearchHelper] is called with. *)
Definition disjunctiveFacets : list string := ["language"].

(** Whether the helper, created with the disjunctive facets [declared],
    carries a call out; it throws otherwise. *)
Definition helper_accepts (declared : list string) (c : helper_call) : bool :=
  match c with
  | AddDisjunctiveFacetRefinement facet _ => bool_decide (facet ∈ declared)
  | _ => true
  end.

(** What a sequence of calls on the helper comes to: the calls carried
    out, and whether the sequence was ended by a call that threw. *)
Record helper_run := {
  run_calls : list helper_call;
  run_thrown : bool
}.

Definition no_call : helper_run := {| run_calls := []; run_thrown := false |}.

Fixpoint run_helper (declared : list string) (calls : list helper_call)
    : helper_run :=
  match calls with
  | [] => no_call
  | c :: rest =>
      if helper_accepts declared c
      then
        let r := run_helper declared rest in
        {| run_calls := c :: run_calls r; run_thrown := run_thrown r |}
      else {| run_calls := []; run_thrown := true |}
  end.

(** The part of [themeConfig.typesense.typesenseSearchParameters] the page
    reads itself. *)
Record searchParameters := { filter_by : option string }.

Section MakeSearch.

Variable typesenseSearchParameters : searchParameters.
Variable currentLocale : string.
(** [docsSearchVersionsHelpers.searchVersions]: plugin id to version name. *)
Variable searchVersions : gmap string string.
Variable searchQuery : string.

(** The test [!filter_by && filter_by !== ''] that guards the automatic
    facets. *)
Definition automatic_facets : bool :=
  negb (truthy (filter_by typesenseSearchParameters))
  && strict_neq (filter_by typesenseSearchParameters) (Some "").

(** The callback of [Object.entries(searchVersions).forEach]. *)
Definition version_refinement (entry : string * string) : helper_call :=
  let '(pluginId, searchVersion) := entry in
  AddDisjunctiveFacetRefinement "docusaurus_tag"
    ("docs-" +:+ pluginId +:+ "-" +:+ searchVersion).

(** The calls the body of [makeSearch(page = 0)] makes on [algoliaHelper],
    in the order of its statements.  The entries of [searchVersions] are
    visited in the order of [map_to_list]. *)
Definition makeSearch_calls (page : option Z) : list helper_call :=
  (if automatic_facets
   then
     [AddDisjunctiveFacetRefinement "docusaurus_tag" "default";
      AddDisjunctiveFacetRefinement "language" currentLocale]
     ++ (version_refinement <$> map_to_list searchVersions)
   else [])
  ++ [SetQuery searchQuery; SetPage (default 0 page); Search].

(** [makeSearch(page = 0)] on the helper of the page. *)
Definition makeSearch (page : option Z) : helper_run :=
  run_helper disjunctiveFacets (makeSearch_calls page).

(** The effect with dependency [searchResultState.lastPage]: it runs after
    a render in which [lastPage] is not the one of the previous render,
    and calls [makeSearch] for the page unless [lastPage] is falsy. *)
Definition lastPage_effect (prevState state : SearchResultState)
    : helper_run :=
  if bool_decide (lastPage prevState = lastPage state) then no_call
  else
    match lastPage state with
    | None => no_call
    | Some p => if (p =? 0)%Z then no_call else makeSearch (Some p)
    end.

End MakeSearch.

(** The facet refinements among the calls made on the helper. *)
Definition refinements (calls : list helper_call) : list (string * string) :=
  omap (fun c =>
          match c with
          | AddDisjunctiveFacetRefinement facet v => Some (facet, v)
          | _ => None
          end) calls.

(** The pages whose search is launched by the calls made on the helper. *)
Fixpoint fetched_pages (calls : list helper_call) (current : Z) : list Z :=
  match calls with
  | [] => []
  | SetPage p :: rest => fetched_pages rest p
  | Search :: rest => current :: fetched_pages rest current
  | _ :: rest => fetched_pages rest current
  end.

(** ** The intersection observer of the sentinel *)

(** [a > b] on finite coordinates. *)
Definition Qgtb (a b : Q) : bool :=
  match Qcompare a b with
  | Gt => true
  | _ => false
  end.

(** The fields the callback reads from an [IntersectionObserverEntry]. *)
Record entry := {
  isIntersecting : bool;
  boundingClientRect_y : Q
}.

(** The callback of the observer, on the current value of [prevY.current]:
    the actions it dispatches and the new [prevY.current]; [None] when
    [entries] is empty and the destructuring of [entries[0]] throws. *)
Definition observer_callback (prevY : Q) (entries : list entry)
    : option (list action * Q) :=
  match entries with
  | [] => None
  | e :: _ =>
      let currentY := boundingClientRect_y e in
      Some (if isIntersecting e && Qgtb prevY currentY then [Advance] else [],
            currentY)
  end.

(** The observer over a sequence of callbacks: what each callback
    dispatched, and the final [prevY.current]. *)
Fixpoint observer_run (prevY : Q) (callbacks : list (list entry))
    : option (list (list action) * Q) :=
  match callbacks with
  | [] => Some ([], prevY)
  | entries :: rest =>
      match observer_callback prevY entries with
      | None => None
      | Some (dispatched, prevY') =>
          match observer_run prevY' rest with
          | None => None
          | Some (later, final) => Some (dispatched :: later, final)
          end
      end
  end.

Definition prevY_initial : Q := 0%Q.

(** The vertical position the sentinel had at the observation before the
    [n]-th one; [start], the initial [prevY.current], before the first. *)
Definition previous_y (start : Q) (callbacks : list (list entry)) (n : nat) : Q :=
  match n with
  | O => start
  | S k =>
      match callbacks !! k with
      | Some (e :: _) => boundingClientRect_y e
      | _ => start
      end
  end.

(** ** The versions of the docs plugins

    [useDocsSearchVersionsHelpers] and [SearchVersionSelectList]. *)

Record version := {
  name : string;
  label : string
}.

(** The data of one docs plugin instance, as [useAllDocsData] gives it. *)
Record docsData := { versions : list version }.

(** The initial [searchVersions]: the [reduce] over
    [Object.entries(allDocsData)] that gives each plugin id the name of
    [versions[0]]; [None] when a plugin has no version and reading
    [versions[0].name] throws. *)
Definition initialSearchVersions (allDocsData : gmap string docsData)
    : option (gmap string string) :=
  foldl (fun acc entry =>
           match acc, versions entry.2 with
           | Some acc, v :: _ => Some (<[entry.1 := name v]> acc)
           | _, _ => None
           end)
        (Some ∅) (map_to_list allDocsData).

(** The callback of that [reduce]. *)
Local Abbreviation initial_step :=
  (fun (acc : option (gmap string string)) (entry : string * docsData) =>
     match acc, versions entry.2 with
     | Some acc, v :: _ => Some (<[entry.1 := name v]> acc)
     | _, _ => None
     end).

(** [setSearchVersion]: [{...s, [pluginId]: searchVersion}]. *)
Definition setSearchVersion (pluginId searchVersion : string)
    (s : gmap string string) : gmap string string :=
  <[pluginId := searchVersion]> s.

(** [docsData.versions.length > 1] *)
Definition versioned (docsData : docsData) : bool :=
  (1 <? length (versions docsData))%nat.

Definition versioningEnabled (allDocsData : gmap string docsData) : bool :=
  existsb (fun entry => versioned entry.2) (map_to_list allDocsData).

(** An [<option>] and a [<select>] of the version menus. *)
Record option_element := {
  option_key : nat;
  option_label : string;
  option_value : string
}.

Record select_element := {
  select_key : string;
  select_defaultValue : option string;
  select_options : list option_element
}.

Definition versionedPluginEntries (allDocsData : gmap string docsData)
    : list (string * docsData) :=
  List.filter (fun entry => versioned entry.2) (map_to_list allDocsData).

(** The selects [SearchVersionSelectList] renders, one per versioned
    plugin. *)
Definition SearchVersionSelectList (allDocsData : gmap string docsData)
    (searchVersions : gmap string string) : list select_element :=
  let entries := versionedPluginEntries allDocsData in
  (fun entry =>
     let labelPrefix :=
       if (1 <? length entries)%nat then entry.1 +:+ ": " else "" in
     {| select_key := entry.1;
        select_defaultValue := searchVersions !! entry.1;
        select_options :=
          imap (fun i v =>
                  {| option_key := i;
                     option_label := labelPrefix +:+ label v;
                     option_value := name v |})
               (versions entry.2) |})
  <$> entries.

(** The [searchVersions] a user can reach: the initial one, then any
    choice of an option in one of the rendered selects ([onChange] calls
    [setSearchVersion] with the select's plugin id and the option's
    value). *)
Inductive reachable_versions (allDocsData : gmap string docsData)
    : gmap string string -> Prop :=
  | reachable_initial (s : gmap string string) :
      initialSearchVersions allDocsData = Some s ->
      reachable_versions allDocsData s
  | reachable_change (s : gmap string string)
      (sel : select_element) (opt : option_element) :
      reachable_versions allDocsData s ->
      sel ∈ SearchVersionSelectList allDocsData s ->
      opt ∈ select_options sel ->
      reachable_versions allDocsData
        (setSearchVersion (select_key sel) (option_value opt) s).

(** ** The effect of a query change and what the page shows *)

(** What the effect with dependencies [searchQuery] and [searchVersions]
    does: the path it hands to [updateSearchPath], the actions it
    dispatches, and what the timer does on the helper 300 ms later. *)
Record query_effect_result := {
  effect_searchPath : string;
  effect_dispatched : list action;
  effect_scheduled : helper_run
}.

Definition query_effect (typesenseSearchParameters : searchParameters)
    (currentLocale : string) (searchVersions : gmap string string)
    (searchQuery : string) : query_effect_result :=
  {| effect_searchPath := searchQuery;
     effect_dispatched :=
       Reset :: (if truthy (Some searchQuery) then [Loading] else []);
     effect_scheduled :=
       if truthy (Some searchQuery)
       then makeSearch typesenseSearchParameters currentLocale
              searchVersions searchQuery None
       else no_call |}.

(** The reducer over the actions dispatched in a row. *)
Definition dispatch_all (searchQuery : string) (s : SearchResultState)
    (actions : list action) : SearchResultState :=
  foldl (reducer searchQuery) s actions.

(** The state after the ['result'] handler has run on a response: the
    action it dispatches goes through the reducer; when the handler throws
    nothing is dispatched. *)
Definition handle_result (new_URL : string -> option URL)
    (searchQuery : string) (s : SearchResultState) (r : results)
    : SearchResultState :=
  match on_result new_URL r with
  | Some a => reducer searchQuery s a
  | None => s
  end.

Definition handle_results (new_URL : string -> option URL)
    (searchQuery : string) (s : SearchResultState) (rs : list results)
    : SearchResultState :=
  foldl (handle_result new_URL searchQuery) s rs.

(** Truthiness of a nullable boolean and of a nullable number. *)
Definition truthy_bool (v : option bool) : bool :=
  match v with
  | Some b => b
  | None => false
  end.

Definition truthy_number (v : option Z) : bool :=
  match v with
  | Some n => negb (n =? 0)%Z
  | None => false
  end.

(** One [<article>] of the result list: the title put in the link, the
    link target, the breadcrumbs [<nav>] when there is one, the summary
    paragraph when there is one. *)
Record article := {
  article_title : option string;
  article_link : string;
  article_breadcrumbs : option (list string);
  article_summary : option string
}.

Definition render_item (item : ResultItem) : article :=
  {| article_title := title item;
     article_link := url item;
     article_breadcrumbs :=
       if (0 <? length (breadcrumbs item))%nat
       then Some (breadcrumbs item) else None;
     article_summary :=
       if truthy (Some (summary item)) then Some (summary item) else None |}.

(** The parts of the page that depend on the search state: the count
    handed to [documentsFoundPlural], the articles, the "No results were
    found" paragraph, the spinner and the "Fetching new results..."
    sentinel. *)
Record page_view := {
  view_documentsFound : option Z;
  view_articles : list article;
  view_noResults : bool;
  view_spinner : bool;
  view_loader : bool
}.

Definition render (searchQuery : string) (s : SearchResultState) : page_view :=
  let has_items := (0 <? length (items s))%nat in
  {| view_documentsFound :=
       if truthy_number (totalResults s) then totalResults s else None;
     view_articles := if has_items then render_item <$> items s else [];
     view_noResults :=
       negb has_items
       && (truthy (Some searchQuery) && negb (truthy_bool (loading s)));
     view_spinner := negb has_items && truthy_bool (loading s);
     view_loader := truthy_bool (hasMore s) |}.

(** ** Highlight markup

    The text a backend that honours [highlightPreTag] and
    [highlightPostTag] sends: plain text, in which the two tags mark the
    matches. *)

Inductive markup :=
  | Text (s : string)
  | HighlightOpen
  | HighlightClose.

Definition lt_char : Ascii.ascii := Ascii.ascii_of_nat 60.

(** No [<] in the string. *)
Fixpoint plain (s : string) : bool :=
  match s with
  | EmptyString => true
  | String c s' => negb (Ascii.eqb c lt_char) && plain s'
  end.

Definition plain_markup (m : markup) : bool :=
  match m with
  | Text s => plain s
  | _ => true
  end.

(** What the backend sends for a piece of markup. *)
Definition raw_markup (m : markup) : string :=
  match m with
  | Text s => s
  | HighlightOpen => highlightPreTag
  | HighlightClose => highlightPostTag
  end.

(** The HTML the page shows for it. *)
Definition html_markup (m : markup) : string :=
  match m with
  | Text s => s
  | HighlightOpen => spanOpen
  | HighlightClose => spanClose
  end.

Definition concat_markup (f : markup -> string) (ms : list markup) : string :=
  foldr (fun m rest => f m +:+ rest) "" ms.

(** A string without its first character. *)
Definition string_tail (s : string) : string :=
  match s with
  | EmptyString => EmptyString
  | String _ t => t
  end.

(** The markup between the two [replace] calls of [sanitizeValue]: the
    opening tags are rewritten, the closing ones not yet. *)
Definition half_markup (m : markup) : string :=
  match m with
  | Text s => s
  | HighlightOpen => spanOpen
  | HighlightClose => highlightPostTag
  end.

(** ** Sample data

    A site with two docs plugins, a query [foo] with two pages of results,
    and a sentinel scrolled down and back up. *)

Definition sample_URL (_ : string) : option URL :=
  Some {| pathname := "/docs/intro"; search := "?v=2"; hash := "#setup" |}.

Definition sample_hit : hit :=
  {| hit_url := "https://example.org/docs/intro?v=2#setup";
     _highlightResult :=
       <[ "hierarchy.lvl0" := {| value := "Docs" |} ]>
       (<[ "hierarchy.lvl2" := {| value := "" |} ]>
       (<[ "hierarchy.lvl3" :=
            {| value := "Set <algolia-docsearch-suggestion--highlight>up</algolia-docsearch-suggestion--highlight> now" |} ]>
        ∅));
     _snippetResult := Some {| content := Some {| value := "Run the installer" |} |} |}.

Definition bare_hit : hit :=
  {| hit_url := "https://example.org/docs/intro";
     _highlightResult := ∅;
     _snippetResult := None |}.

Definition sample_item : ResultItem :=
  {| title := Some (sanitizeValue "Set <algolia-docsearch-suggestion--highlight>up</algolia-docsearch-suggestion--highlight> now");
     url := "/docs/intro#setup";
     summary := "Run the installer...";
     breadcrumbs := ["Docs"] |}.

Definition sample_results (q : string) (p : Z) : results :=
  {| r_query := q; hits := Some [sample_hit]; page := p;
     nbHits := 16; nbPages := 2 |}.

Definition sample_payload (q : string) (p : Z) : SearchResultState :=
  {| items := [sample_item];
     query := Some q;
     totalResults := Some 16;
     totalPages := Some 2;
     lastPage := Some p;
     hasMore := Some (2 >? p + 1);
     loading := Some false |}.

Definition sample_state : SearchResultState :=
  reducer "foo" initialSearchResultState (Update (sample_payload "foo" 0)).

Definition sample_versions : gmap string string :=
  <[ "default" := "2.0.0" ]> (<[ "community" := "current" ]> ∅).

Definition sample_docs : gmap string docsData :=
  <[ "default" :=
       {| versions := [ {| name := "2.0.0"; label := "2.0.0" |};
                        {| name := "1.0.0"; label := "1.0.0" |} ] |} ]>
  (<[ "community" :=
        {| versions := [ {| name := "current"; label := "Next" |} ] |} ]> ∅).

Definition sample_observations : list (list entry) :=
  [ [ {| isIntersecting := false; boundingClientRect_y := 900 # 1 |} ];
    [ {| isIntersecting := true; boundingClientRect_y := 1201 # 2 |} ];
    [ {| isIntersecting := true; boundingClientRect_y := 640 # 1 |} ] ].

(** * Properties *)

(** ** The reducer *)

Lemma strict_neq_true (a b : option string) : strict_neq a b = true <-> a <> b.
Proof.
  unfold strict_neq. rewrite negb_true_iff, bool_decide_eq_false. tauto.
Qed.

Lemma strict_neq_false (a b : option string) : strict_neq a b = false <-> a = b.
Proof.
  unfold strict_neq. rewrite negb_false_iff, bool_decide_eq_true. tauto.
Qed.

(** An accepted update: every field but [items] is the payload's. *)
Lemma update_accepted (searchQuery : string) (prevState state : SearchResultState) :
  query state = Some searchQuery ->
  reducer searchQuery prevState (Update state) =
    {| items := if bool_decide (lastPage state = Some 0)
                then items state else items prevState ++ items state;
       query := query state;
       totalResults := totalResults state;
       totalPages := totalPages state;
       lastPage := lastPage state;
       hasMore := hasMore state;
       loading := loading state |}.
Proof.
  intros Hq. simpl.
  destruct (strict_neq (Some searchQuery) (query state)) eqn:E; [|reflexivity].
  apply strict_neq_true in E. congruence.
Qed.

(** C1. An ['update'] whose payload query differs from the live query
    leaves the state as it was, whatever the state and the rest of the
    payload; so an ['update'] that changes the state carries the live
    query. *)
Theorem update_stale_discarded
    (searchQuery : string) (prevState state : SearchResultState) :
  (query state <> Some searchQuery ->
     reducer searchQuery prevState (Update state) = prevState)
  /\ (reducer searchQuery prevState (Update state) <> prevState ->
        query state = Some searchQuery).
Proof.
  simpl.
  destruct (strict_neq (Some searchQuery) (query state)) eqn:E.
  - split; [reflexivity | intros H; now destruct H].
  - apply strict_neq_false in E. split; [congruence | intros _; congruence].
Qed.

(** C2. An accepted ['update'] with page index 0 replaces the items by the
    payload's; with a page index of at least 1 it puts the payload's items
    after the prior ones, which stay, in order, at the front. *)
Theorem update_items
    (searchQuery : string) (prevState state : SearchResultState) :
  query state = Some searchQuery ->
  (lastPage state = Some 0 ->
     items (reducer searchQuery prevState (Update state)) = items state)
  /\ (forall p : Z, lastPage state = Some p -> 1 <= p ->
        items (reducer searchQuery prevState (Update state))
          = items prevState ++ items state
        /\ items prevState `prefix_of`
             items (reducer searchQuery prevState (Update state))).
Proof.
  intros Hq. rewrite (update_accepted _ _ _ Hq). cbn [items]. split.
  - intros ->. reflexivity.
  - intros p -> Hp. rewrite bool_decide_eq_false_2.
    + split; [reflexivity | apply prefix_app_r; reflexivity].
    + intros [= ->]. lia.
Qed.

(** C9. ['loading'] sets the flag and keeps the six other fields. *)
Theorem loading_frame (searchQuery : string) (prevState : SearchResultState) :
  let next := reducer searchQuery prevState Loading in
  loading next = Some true
  /\ items next = items prevState
  /\ query next = query prevState
  /\ totalResults next = totalResults prevState
  /\ totalPages next = totalPages prevState
  /\ lastPage next = lastPage prevState
  /\ hasMore next = hasMore prevState.
Proof. simpl. repeat split. Qed.

(** ** [hasMore] and ['advance'] *)

Lemma on_result_update (new_URL : string -> option URL) (r : results)
    (state : SearchResultState) :
  on_result new_URL r = Some (Update state) ->
  exists its,
    mapM (shape_hit new_URL) (default [] (hits r)) = Some its
    /\ state =
         {| items := its;
            query := Some (r_query r);
            totalResults := Some (nbHits r);
            totalPages := Some (nbPages r);
            lastPage := Some (page r);
            hasMore := Some (nbPages r >? page r + 1);
            loading := Some false |}.
Proof.
  unfold on_result.
  destruct (String.eqb (r_query r) "" || negb (instanceof_Array (hits r)));
    [discriminate|].
  destruct (mapM (shape_hit new_URL) (default [] (hits r))) as [its|];
    [|discriminate].
  intros [= <-]. exists its. split; reflexivity.
Qed.

(** C3. [hasMore] is [true] exactly when [totalPages > lastPage + 1]: in
    the payload the result handler builds from the response's
    [(nbPages, page)], which become the state's [(totalPages, lastPage)],
    and in the state ['advance'] returns, which derives it from the pair of
    the state it is given ([to_number] is the identity on numbers and reads
    [null] as 0). *)
Theorem hasMore_iff :
  (forall (new_URL : string -> option URL) (r : results)
          (state : SearchResultState),
      on_result new_URL r = Some (Update state) ->
      totalPages state = Some (nbPages r)
      /\ lastPage state = Some (page r)
      /\ (hasMore state = Some true <-> nbPages r > page r + 1))
  /\ (forall (searchQuery : string) (prevState : SearchResultState),
        hasMore (reducer searchQuery prevState Advance) = Some true
        <-> to_number (totalPages prevState)
              > to_number (lastPage prevState) + 1).
Proof.
  split.
  - intros new_URL r state H.
    destruct (on_result_update _ _ _ H) as (its & _ & ->). cbn.
    repeat split.
    + intros [= E]. now apply Z.gtb_gt.
    + intros E. f_equal. now apply Z.gtb_gt.
  - intros searchQuery prevState. cbn. split.
    + intros [= E]. now apply Z.gtb_gt.
    + intros E. f_equal. now apply Z.gtb_gt.
Qed.

(** After ['advance'] has moved [lastPage], the [hasMore] it stored is the
    one of the page it left: with two pages and page 0 shown, the state
    after ['advance'] has [lastPage = 1] and still [hasMore = true]. *)
Example advance_hasMore_of_previous_page :
  let prevState :=
    {| items := []; query := Some "foo"; totalResults := Some 20;
       totalPages := Some 2; lastPage := Some 0;
       hasMore := Some true; loading := Some false |} in
  let next := reducer "foo" prevState Advance in
  lastPage next = Some 1
  /\ hasMore next = Some true
  /\ ~ to_number (totalPages next) > to_number (lastPage next) + 1.
Proof.
  split; [reflexivity|]. split; [reflexivity|].
  intros H. vm_compute in H. discriminate.
Qed.

Lemma automatic_facets_absent (params : searchParameters) :
  filter_by params = None -> automatic_facets params = true.
Proof. unfold automatic_facets. now intros ->. Qed.

Lemma automatic_facets_supplied (params : searchParameters) :
  is_Some (filter_by params) -> automatic_facets params = false.
Proof.
  unfold automatic_facets. intros [f ->]. simpl.
  destruct (String.eqb_spec f "") as [-> | Hne]; [reflexivity|].
  reflexivity.
Qed.

(** With a [filter_by], [makeSearch] sets the query and the page and
    searches. *)
Lemma makeSearch_supplied
    (params : searchParameters) (locale : string)
    (versions : gmap string string) (searchQuery : string)
    (page : option Z) :
  is_Some (filter_by params) ->
  makeSearch params locale versions searchQuery page
  = {| run_calls := [SetQuery searchQuery; SetPage (default 0 page); Search];
       run_thrown := false |}.
Proof.
  intros H. unfold makeSearch, makeSearch_calls.
  rewrite (automatic_facets_supplied _ H). reflexivity.
Qed.

(** Without one, its first call is refused: [docusaurus_tag] is not a
    declared facet. *)
Lemma makeSearch_absent
    (params : searchParameters) (locale : string)
    (versions : gmap string string) (searchQuery : string)
    (page : option Z) :
  filter_by params = None ->
  makeSearch params locale versions searchQuery page
  = {| run_calls := []; run_thrown := true |}.
Proof.
  intros H. unfold makeSearch, makeSearch_calls.
  rewrite (automatic_facets_absent _ H). reflexivity.
Qed.

Lemma makeSearch_fetches
    (params : searchParameters) (locale : string)
    (versions : gmap string string) (searchQuery : string)
    (page current : Z) :
  is_Some (filter_by params) ->
  fetched_pages
    (run_calls (makeSearch params locale versions searchQuery (Some page)))
    current = [page].
Proof. intros H. rewrite (makeSearch_supplied _ _ _ _ _ H). reflexivity. Qed.

(** C4. ['advance'] moves [lastPage] one page further exactly when
    [totalPages > lastPage + 1] holds of the state it is given, and keeps
    it otherwise.  The effect that fetches a page reads nothing of the
    state but [lastPage]: when ['advance'] moved it from a page index, the
    effect calls [makeSearch] for the new page, which with a [filter_by]
    in the configuration launches one search, for that page; when
    ['advance'] kept it the effect makes no call. *)
Theorem advance_lastPage
    (params : searchParameters) (locale : string)
    (versions : gmap string string)
    (searchQuery : string) (prevState : SearchResultState) :
  let next := reducer searchQuery prevState Advance in
  let effect := lastPage_effect params locale versions searchQuery in
  (to_number (totalPages prevState) > to_number (lastPage prevState) + 1 ->
     lastPage next = Some (to_number (lastPage prevState) + 1)
     /\ (0 <= to_number (lastPage prevState) ->
           effect prevState next
           = makeSearch params locale versions searchQuery
               (Some (to_number (lastPage prevState) + 1))
           /\ (is_Some (filter_by params) ->
                 fetched_pages (run_calls (effect prevState next)) 0
                 = [to_number (lastPage prevState) + 1])))
  /\ (to_number (totalPages prevState) <= to_number (lastPage prevState) + 1 ->
        lastPage next = lastPage prevState
        /\ effect prevState next = no_call)
  /\ (forall s1 s1' s2 s2' : SearchResultState,
        lastPage s1 = lastPage s2 -> lastPage s1' = lastPage s2' ->
        effect s1 s1' = effect s2 s2').
Proof.
  cbn zeta. split; [|split].
  - intros Hmore. apply Z.gtb_gt in Hmore. split.
    + cbn. now rewrite Hmore.
    + intros Hpos.
      assert (Heff :
        lastPage_effect params locale versions searchQuery prevState
          (reducer searchQuery prevState Advance)
        = makeSearch params locale versions searchQuery
            (Some (to_number (lastPage prevState) + 1))).
      { unfold lastPage_effect. cbn [reducer lastPage]. rewrite Hmore.
        rewrite bool_decide_eq_false_2.
        - destruct (Z.eqb_spec (to_number (lastPage prevState) + 1) 0);
            [lia | reflexivity].
        - destruct (lastPage prevState); [intros [= E]; lia | discriminate]. }
      split; [exact Heff|]. intros Hf. rewrite Heff.
      now apply makeSearch_fetches.
  - intros Hlast.
    assert (Hmore : (to_number (totalPages prevState)
                       >? to_number (lastPage prevState) + 1) = false).
    { destruct (Z.gtb_spec (to_number (totalPages prevState))
                  (to_number (lastPage prevState) + 1)); [lia | reflexivity]. }
    split.
    + cbn. now rewrite Hmore.
    + unfold lastPage_effect. cbn [reducer lastPage]. rewrite Hmore.
      now rewrite bool_decide_eq_true_2.
  - intros s1 s1' s2 s2' E E'. unfold lastPage_effect. now rewrite E, E'.
Qed.

(** ** Reset *)

(** C5. A response with an empty query, or whose [hits] is not an array,
    makes the result handler dispatch ['reset'], and ['reset'] returns the
    initial state whatever the state was. *)
Theorem malformed_response_resets
    (new_URL : string -> option URL) (r : results)
    (searchQuery : string) (prevState : SearchResultState) :
  r_query r = "" \/ hits r = None ->
  on_result new_URL r = Some Reset
  /\ reducer searchQuery prevState Reset =
       {| items := []; query := None; totalResults := None;
          totalPages := None; lastPage := None; hasMore := None;
          loading := None |}.
Proof.
  intros H. split; [|reflexivity].
  unfold on_result. destruct H as [-> | ->]; [reflexivity|].
  cbn. now rewrite orb_true_r.
Qed.

(** ** Automatic facets *)

Lemma refinements_versions (entries : list (string * string)) :
  refinements (version_refinement <$> entries)
  = (fun e => ("docusaurus_tag", "docs-" +:+ e.1 +:+ "-" +:+ e.2)) <$> entries.
Proof.
  induction entries as [|[g ver] entries IH]; [reflexivity|].
  change (refinements (version_refinement <$> (g, ver) :: entries))
    with (("docusaurus_tag", "docs-" +:+ g +:+ "-" +:+ ver)
            :: refinements (version_refinement <$> entries)).
  now rewrite IH.
Qed.

(** The refinements the body of [makeSearch] asks for when there is no
    [filter_by]: the [default] tag, the locale, and one tag per plugin id
    with its selected version. *)
Lemma makeSearch_calls_facets
    (params : searchParameters) (locale : string)
    (versions : gmap string string) (searchQuery : string)
    (page : option Z) :
  filter_by params = None ->
  forall facet v : string,
    (facet, v)
      ∈ refinements (makeSearch_calls params locale versions searchQuery page)
    <-> (facet = "docusaurus_tag" /\ v = "default")
        \/ (facet = "language" /\ v = locale)
        \/ (exists pluginId searchVersion : string,
               versions !! pluginId = Some searchVersion
               /\ facet = "docusaurus_tag"
               /\ v = "docs-" +:+ pluginId +:+ "-" +:+ searchVersion).
Proof.
  unfold makeSearch_calls.
  intros H facet v. rewrite (automatic_facets_absent _ H).
  unfold refinements. rewrite omap_app. simpl.
  rewrite app_nil_r. fold (refinements (version_refinement <$> map_to_list versions)).
  rewrite refinements_versions.
  rewrite !elem_of_cons, list_elem_of_fmap. split.
  + intros [[= -> ->] | [[= -> ->] | ([g ver] & [= -> ->] & Hin)]]; auto.
    right. right. exists g, ver. apply elem_of_map_to_list in Hin. auto.
  + intros [[-> ->] | [[-> ->] | (g & ver & Hl & -> & ->)]]; auto.
    right. right. exists (g, ver). split; [reflexivity|].
    now apply elem_of_map_to_list.
Qed.

(** A helper that declares [docusaurus_tag] beside [language] carries out
    every call of the body. *)
Lemma run_helper_declared
    (params : searchParameters) (locale : string)
    (versions : gmap string string) (searchQuery : string)
    (page : option Z) :
  run_helper ["language"; "docusaurus_tag"]
    (makeSearch_calls params locale versions searchQuery page)
  = {| run_calls := makeSearch_calls params locale versions searchQuery page;
       run_thrown := false |}.
Proof.
  unfold makeSearch_calls. destruct (automatic_facets params); [|reflexivity].
  cbn [app run_helper helper_accepts].
  rewrite !bool_decide_eq_true_2 by set_solver.
  cbn [run_calls run_thrown].
  assert (H : forall entries : list (string * string),
            run_helper ["language"; "docusaurus_tag"]
              ((version_refinement <$> entries)
               ++ [SetQuery searchQuery; SetPage (default 0 page); Search])
            = {| run_calls :=
                   (version_refinement <$> entries)
                   ++ [SetQuery searchQuery; SetPage (default 0 page); Search];
                 run_thrown := false |}).
  { induction entries as [|[g ver] entries IH]; [reflexivity|].
    cbn [fmap list_fmap app run_helper version_refinement helper_accepts].
    rewrite bool_decide_eq_true_2 by set_solver.
    fold (fmap (M:=list) version_refinement entries).
    rewrite IH. reflexivity. }
  rewrite H. reflexivity.
Qed.

(** C6. Without [filter_by], the first call of [makeSearch] is the
    refinement of [docusaurus_tag] by [default], and the helper, which
    declares [language] only, refuses it: the call throws, so that
    whatever the locale, the selected versions, the query and the page, no
    refinement is added and no search is made. *)
Theorem makeSearch_without_filter_by
    (locale : string) (versions : gmap string string)
    (searchQuery : string) (page : option Z) :
  head (makeSearch_calls {| filter_by := None |} locale versions searchQuery
          page)
  = Some (AddDisjunctiveFacetRefinement "docusaurus_tag" "default")
  /\ helper_accepts disjunctiveFacets
       (AddDisjunctiveFacetRefinement "docusaurus_tag" "default") = false
  /\ makeSearch {| filter_by := None |} locale versions searchQuery page
     = {| run_calls := []; run_thrown := true |}
  /\ refinements
       (run_calls
          (makeSearch {| filter_by := None |} locale versions searchQuery page))
     = []
  /\ fetched_pages
       (run_calls
          (makeSearch {| filter_by := None |} locale versions searchQuery page))
       0
     = [].
Proof.
  split; [reflexivity|]. split; [reflexivity|].
  rewrite (makeSearch_absent {| filter_by := None |} locale versions
             searchQuery page eq_refl).
  split; [reflexivity|]. split; reflexivity.
Qed.

(** ** Result shaping *)

Lemma replace_all_nonempty (pat rep s : string) :
  rep <> "" -> s <> "" -> replace_all pat rep s <> "".
Proof.
  intros Hrep Hs. destruct s as [|c s]; [congruence|].
  unfold replace_all. cbn [replace_from].
  destruct (String.prefix pat (String c s)); [|discriminate].
  destruct rep; [congruence | discriminate].
Qed.

Lemma sanitizeValue_empty (s : string) : sanitizeValue s = "" <-> s = "".
Proof.
  split; [|now intros ->].
  intros H. destruct (String.eqb_spec s "") as [|Hne]; [assumption|].
  exfalso. revert H. unfold sanitizeValue.
  apply replace_all_nonempty; [discriminate|].
  apply replace_all_nonempty; [discriminate | assumption].
Qed.

(** A level survives [.filter(v => v)] exactly when it is non-empty. *)
Lemma truthy_level_title (h : hit) (lvl : nat) :
  (if truthy (level_title h lvl) then level_title h lvl else None)
  = sanitizeValue <$> nonempty_level h lvl.
Proof.
  unfold level_title, nonempty_level.
  destruct (_highlightResult h !! level_key lvl) as [hr|]; [|reflexivity].
  cbn [truthy].
  destruct (String.eqb_spec (value hr) "") as [E | E].
  - rewrite E. reflexivity.
  - destruct (String.eqb_spec (sanitizeValue (value hr)) "") as [E' | E'].
    + exfalso. apply E. now apply sanitizeValue_empty.
    + reflexivity.
Qed.

(** The titles are the sanitized non-empty levels, in level order. *)
Lemma filter_truthy_levels (h : hit) (lvls : list nat) :
  filter_truthy (level_title h <$> lvls)
  = sanitizeValue <$> omap (nonempty_level h) lvls.
Proof.
  induction lvls as [|lvl lvls IH]; [reflexivity|].
  unfold filter_truthy in *. cbn [fmap list_fmap omap list_omap].
  rewrite IH, truthy_level_title.
  destruct (nonempty_level h lvl); reflexivity.
Qed.

Lemma titles_levels (h : hit) :
  titles h = sanitizeValue <$> omap (nonempty_level h) (seq 0 7).
Proof. apply filter_truthy_levels. Qed.

Lemma omap_all_None {A B : Type} (f : A -> option B) (l : list A) :
  (forall x, x ∈ l -> f x = None) -> omap f l = [].
Proof.
  induction l as [|x l IH]; [reflexivity|]. intros H.
  cbn [omap list_omap]. rewrite (H x) by apply list_elem_of_here.
  apply IH. intros y Hy. apply H. now apply list_elem_of_further.
Qed.

(** The titles when [d] is the deepest non-empty level. *)
Lemma titles_deepest (h : hit) (d : nat) (t : string) :
  (d < 7)%nat ->
  nonempty_level h d = Some t ->
  (forall j : nat, (d < j < 7)%nat -> nonempty_level h j = None) ->
  titles h
  = (sanitizeValue <$> omap (nonempty_level h) (seq 0 d)) ++ [sanitizeValue t].
Proof.
  intros Hd Ht Hdeeper. rewrite titles_levels.
  replace 7%nat with (d + S (6 - d))%nat by lia.
  rewrite seq_app, omap_app, fmap_app. f_equal.
  cbn [seq omap list_omap]. rewrite Nat.add_0_l, Ht.
  rewrite omap_all_None; [reflexivity|].
  intros j Hj. apply list_elem_of_In, in_seq in Hj. apply Hdeeper. lia.
Qed.

(** C7. For a hit whose URL parses: if [d] is the deepest non-empty level
    among [lvl0] to [lvl6], the title is that level's (sanitized) text and
    the breadcrumbs are the (sanitized) texts of the non-empty levels above
    it, in level order; the url is the pathname followed by the fragment,
    the query string of the URL having no part in it; the summary is the
    sanitized snippet followed by ["..."] when the hit has a content
    snippet, and the empty string when it has none. *)
Theorem shape_hit_spec
    (new_URL : string -> option URL) (h : hit) (u : URL) :
  new_URL (hit_url h) = Some u ->
  exists item : ResultItem,
    shape_hit new_URL h = Some item
    /\ (forall (d : nat) (t : string),
          (d < 7)%nat ->
          nonempty_level h d = Some t ->
          (forall j : nat, (d < j < 7)%nat -> nonempty_level h j = None) ->
          title item = Some (sanitizeValue t)
          /\ breadcrumbs item
               = sanitizeValue <$> omap (nonempty_level h) (seq 0 d))
    /\ url item = pathname u +:+ hash u
    /\ summary item
         = match _snippetResult h with
           | Some {| content := Some c |} => sanitizeValue (value c) +:+ "..."
           | _ => ""
           end.
Proof.
  intros Hu. unfold shape_hit. rewrite Hu. eexists. split; [reflexivity|].
  cbn [title breadcrumbs url summary]. split; [|split].
  - intros d t Hd Ht Hdeeper.
    rewrite (titles_deepest h d t Hd Ht Hdeeper). split.
    + apply last_snoc.
    + apply removelast_last.
  - reflexivity.
  - destruct (_snippetResult h) as [[[c|]]|]; reflexivity.
Qed.

(** C10. For a hit whose URL parses and whose highlight result has none of
    [hierarchy.lvl0] to [hierarchy.lvl6], [titles] is empty: the item has
    no title and no breadcrumbs. *)
Theorem shape_hit_no_level
    (new_URL : string -> option URL) (h : hit) (u : URL) :
  new_URL (hit_url h) = Some u ->
  (forall lvl : nat, (lvl < 7)%nat ->
     _highlightResult h !! level_key lvl = None) ->
  titles h = []
  /\ exists item : ResultItem,
       shape_hit new_URL h = Some item
       /\ title item = None
       /\ breadcrumbs item = [].
Proof.
  intros Hu Hnone.
  assert (Ht : titles h = []).
  { rewrite titles_levels, omap_all_None; [reflexivity|].
    intros lvl Hl. apply list_elem_of_In, in_seq in Hl.
    unfold nonempty_level. rewrite Hnone by lia. reflexivity. }
  split; [exact Ht|].
  unfold shape_hit. rewrite Hu, Ht. eexists. split; [reflexivity|].
  split; reflexivity.
Qed.

(** ** The intersection observer *)

Lemma Qgtb_lt (a b : Q) : Qgtb a b = true <-> (b < a)%Q.
Proof.
  unfold Qgtb. rewrite Qgt_alt.
  destruct (Qcompare a b); split; congruence.
Qed.

(** One callback: ['advance'] is dispatched exactly when the first entry
    is intersecting and below [prevY.current], which then takes its
    position. *)
Lemma observer_callback_advance (prevY : Q) (e : entry) (rest : list entry) :
  exists dispatched : list action,
    observer_callback prevY (e :: rest)
      = Some (dispatched, boundingClientRect_y e)
    /\ (dispatched = [Advance] \/ dispatched = [])
    /\ (dispatched = [Advance]
        <-> isIntersecting e = true /\ (boundingClientRect_y e < prevY)%Q).
Proof.
  cbn [observer_callback].
  destruct (isIntersecting e && Qgtb prevY (boundingClientRect_y e)) eqn:E;
    eexists; (split; [reflexivity|]).
  - apply andb_true_iff in E. rewrite Qgtb_lt in E. tauto.
  - split; [tauto|]. split; [discriminate|].
    intros [Hi Hy]. apply Qgtb_lt in Hy. rewrite Hi, Hy in E. discriminate.
Qed.

(** After a first callback, the previous position is the one that callback
    stored. *)
Lemma previous_y_cons (start : Q) (e0 : entry) (rest0 : list entry)
    (callbacks : list (list entry)) (n : nat) :
  Forall (fun entries => entries <> []) callbacks ->
  (n <= length callbacks)%nat ->
  previous_y start ((e0 :: rest0) :: callbacks) (S n)
  = previous_y (boundingClientRect_y e0) callbacks n.
Proof.
  intros Hne Hn. destruct n as [|n]; [reflexivity|].
  destruct (lookup_lt_is_Some_2 callbacks n) as [prev Hprev]; [lia|].
  unfold previous_y. rewrite lookup_cons, Hprev.
  destruct prev as [|e1 rest1]; [|reflexivity].
  exfalso. exact (Forall_lookup_1 _ _ _ _ Hne Hprev eq_refl).
Qed.

(** C8. Over any sequence of callbacks of the observer, each with at least
    one entry, every callback dispatches either ['advance'] once or
    nothing, and it dispatches ['advance'] exactly when the sentinel is
    intersecting and its vertical position is strictly below the one of
    the previous observation (below the initial [prevY.current] for the
    first); a sentinel that is not lower than before dispatches nothing. *)
Theorem observer_advance_iff (start : Q) (callbacks : list (list entry)) :
  Forall (fun entries => entries <> []) callbacks ->
  exists (dispatched : list (list action)) (final : Q),
    observer_run start callbacks = Some (dispatched, final)
    /\ forall (n : nat) (e : entry) (rest : list entry),
         callbacks !! n = Some (e :: rest) ->
         exists d : list action,
           dispatched !! n = Some d
           /\ (d = [Advance] \/ d = [])
           /\ (d = [Advance]
               <-> isIntersecting e = true
                   /\ (boundingClientRect_y e < previous_y start callbacks n)%Q).
Proof.
  intros Hne. revert start.
  induction Hne as [|entries callbacks Hentries Hrest IH]; intros start.
  - exists [], start. split; [reflexivity|]. intros n e rest H. discriminate.
  - destruct entries as [|e0 rest0]; [congruence|].
    destruct (observer_callback_advance start e0 rest0) as (d0 & Hcb & Hd0).
    destruct (IH (boundingClientRect_y e0)) as (ds & final & Hrun & Hds).
    exists (d0 :: ds), final. split.
    + cbn [observer_run]. rewrite Hcb, Hrun. reflexivity.
    + intros [|n] e rest Hn.
      * injection Hn as -> ->. exists d0. split; [reflexivity | exact Hd0].
      * cbn in Hn. destruct (Hds n e rest Hn) as (d & Hd & Hshape & Hiff).
        exists d. split; [exact Hd|]. split; [exact Hshape|].
        rewrite Hiff, (previous_y_cons start e0 rest0 callbacks n Hrest).
        -- reflexivity.
        -- apply lookup_lt_Some in Hn. lia.
Qed.

(** ** The properties on the sample data *)

Lemma update_stale_discarded_witness :
  reducer "foo" sample_state (Update (sample_payload "bar" 0)) = sample_state
  /\ query (sample_payload "foo" 1) = Some "foo".
Proof.
  split.
  - apply (proj1 (update_stale_discarded "foo" sample_state
                    (sample_payload "bar" 0))).
    discriminate.
  - apply (proj2 (update_stale_discarded "foo" sample_state
                    (sample_payload "foo" 1))).
    vm_compute. discriminate.
Defined.

Lemma update_items_witness :
  items (reducer "foo" sample_state (Update (sample_payload "foo" 0)))
    = [sample_item]
  /\ items (reducer "foo" sample_state (Update (sample_payload "foo" 1)))
       = [sample_item; sample_item].
Proof.
  split.
  - apply (proj1 (update_items "foo" sample_state (sample_payload "foo" 0)
                    eq_refl)).
    reflexivity.
  - apply (proj2 (update_items "foo" sample_state (sample_payload "foo" 1)
                    eq_refl) 1); [reflexivity | lia].
Defined.

Lemma hasMore_iff_witness :
  on_result sample_URL (sample_results "foo" 1)
    = Some (Update (sample_payload "foo" 1))
  /\ (hasMore (sample_payload "foo" 1) = Some true <-> 2 > 1 + 1).
Proof.
  split.
  - vm_compute. reflexivity.
  - apply (proj1 hasMore_iff sample_URL (sample_results "foo" 1)
             (sample_payload "foo" 1)).
    vm_compute. reflexivity.
Defined.

Lemma advance_lastPage_witness :
  lastPage (reducer "foo" sample_state Advance) = Some 1
  /\ fetched_pages
       (run_calls
          (lastPage_effect {| filter_by := Some "version:=2.0.0" |} "en"
             sample_versions "foo"
             sample_state (reducer "foo" sample_state Advance))) 0
     = [1].
Proof.
  destruct (advance_lastPage {| filter_by := Some "version:=2.0.0" |} "en"
              sample_versions "foo" sample_state) as [Hmore _].
  destruct Hmore as [Hlast Hfetch]; [vm_compute; reflexivity|].
  split; [exact Hlast|].
  destruct Hfetch as [_ Hfetch]; [vm_compute; discriminate|].
  apply Hfetch. eexists. reflexivity.
Defined.

Lemma malformed_response_resets_witness :
  on_result sample_URL
    {| r_query := "foo"; hits := None; page := 0; nbHits := 0; nbPages := 0 |}
    = Some Reset
  /\ reducer "foo" sample_state Reset = initialSearchResultState.
Proof.
  apply (malformed_response_resets sample_URL
           {| r_query := "foo"; hits := None; page := 0;
              nbHits := 0; nbPages := 0 |}
           "foo" sample_state).
  right. reflexivity.
Defined.

Lemma shape_hit_spec_witness :
  exists item : ResultItem,
    shape_hit sample_URL sample_hit = Some item
    /\ title item = title sample_item
    /\ breadcrumbs item = ["Docs"]
    /\ url item = "/docs/intro#setup"
    /\ summary item = "Run the installer...".
Proof.
  destruct (shape_hit_spec sample_URL sample_hit
              {| pathname := "/docs/intro"; search := "?v=2"; hash := "#setup" |}
              eq_refl)
    as (item & Hitem & Hlevels & Hurl & Hsummary).
  exists item. split; [exact Hitem|].
  destruct (Hlevels 3%nat
              "Set <algolia-docsearch-suggestion--highlight>up</algolia-docsearch-suggestion--highlight> now")
    as [Htitle Hcrumbs].
  - lia.
  - vm_compute. reflexivity.
  - intros j Hj.
    assert (E : j = 4%nat \/ j = 5%nat \/ j = 6%nat) by lia.
    destruct E as [-> | [-> | ->]]; vm_compute; reflexivity.
  - split; [exact Htitle|]. split; [exact Hcrumbs|].
    split; [exact Hurl | exact Hsummary].
Defined.

Lemma shape_hit_no_level_witness :
  titles bare_hit = []
  /\ exists item : ResultItem,
       shape_hit sample_URL bare_hit = Some item
       /\ title item = None
       /\ breadcrumbs item = [].
Proof.
  apply (shape_hit_no_level sample_URL bare_hit
           {| pathname := "/docs/intro"; search := "?v=2"; hash := "#setup" |}
           eq_refl).
  intros lvl _. reflexivity.
Defined.

Lemma observer_advance_iff_witness :
  exists (dispatched : list (list action)) (final : Q),
    observer_run prevY_initial sample_observations = Some (dispatched, final)
    /\ forall (n : nat) (e : entry) (rest : list entry),
         sample_observations !! n = Some (e :: rest) ->
         exists d : list action,
           dispatched !! n = Some d
           /\ (d = [Advance] \/ d = [])
           /\ (d = [Advance]
               <-> isIntersecting e = true
                   /\ (boundingClientRect_y e
                         < previous_y prevY_initial sample_observations n)%Q).
Proof.
  apply (observer_advance_iff prevY_initial sample_observations).
  repeat constructor; discriminate.
Defined.

(** * Further properties *)

(** ** [sanitizeValue] on highlight markup *)

Lemma plain_cons (c : Ascii.ascii) (s : string) :
  plain (String c s) = true -> c <> lt_char /\ plain s = true.
Proof.
  cbn [plain]. intros H. apply andb_true_iff in H. destruct H as [Hc Hs].
  split; [|exact Hs]. apply negb_true_iff in Hc. now apply Ascii.eqb_neq.
Qed.

(** A pattern that starts with [<] matches nowhere in plain text. *)
Lemma replace_from_plain (pat pat' rep s rest : string) :
  pat = String lt_char pat' ->
  plain s = true ->
  replace_from pat rep (s +:+ rest) 0 = s +:+ replace_from pat rep rest 0.
Proof.
  intros -> Hs. induction s as [|c s IH]; [reflexivity|].
  apply plain_cons in Hs. destruct Hs as [Hc Hs].
  change (String c s +:+ rest) with (String c (s +:+ rest)).
  cbn [replace_from String.prefix].
  destruct (Ascii.ascii_dec lt_char c) as [E|_]; [congruence|].
  rewrite (IH Hs). reflexivity.
Qed.

(** A [<] that does not start a match is kept, with the plain text that
    follows it. *)
Lemma replace_from_other_tag (pat pat' rep x tail rest : string) :
  pat = String lt_char pat' ->
  x = String lt_char tail ->
  plain tail = true ->
  String.prefix pat (x +:+ rest) = false ->
  replace_from pat rep (x +:+ rest) 0 = x +:+ replace_from pat rep rest 0.
Proof.
  intros Hpat -> Htail Hmis.
  change (String lt_char tail +:+ rest) with (String lt_char (tail +:+ rest))
    in *.
  cbn [replace_from]. rewrite Hmis.
  rewrite (replace_from_plain pat pat' rep tail rest Hpat Htail). reflexivity.
Qed.

Lemma prefix_append (pat rest : string) : String.prefix pat (pat +:+ rest) = true.
Proof.
  induction pat as [|c pat IH].
  - destruct rest; reflexivity.
  - change (String c pat +:+ rest) with (String c (pat +:+ rest)).
    cbn [String.prefix]. destruct (Ascii.ascii_dec c c); [exact IH | congruence].
Qed.

Lemma replace_from_skip (pat rep x rest : string) :
  replace_from pat rep (x +:+ rest) (String.length x)
  = replace_from pat rep rest 0.
Proof.
  induction x as [|c x IH]; [reflexivity|].
  change (String c x +:+ rest) with (String c (x +:+ rest)).
  cbn [replace_from String.length]. exact IH.
Qed.

(** A match is replaced, and the search goes on after it. *)
Lemma replace_from_match (c : Ascii.ascii) (pat' rep rest : string) :
  replace_from (String c pat') rep (String c pat' +:+ rest) 0
  = rep +:+ replace_from (String c pat') rep rest 0.
Proof.
  pose proof (prefix_append (String c pat') rest) as Hp.
  change (String c pat' +:+ rest) with (String c (pat' +:+ rest)) in *.
  cbn [replace_from]. rewrite Hp.
  cbn [String.length]. rewrite Nat.sub_1_r. cbn [Nat.pred].
  now rewrite replace_from_skip.
Qed.

Lemma replace_pre_markup (m : markup) (rest : string) :
  plain_markup m = true ->
  replace_from highlightPreTag spanOpen (raw_markup m +:+ rest) 0
  = half_markup m +:+ replace_from highlightPreTag spanOpen rest 0.
Proof.
  destruct m as [s| |]; intros Hm.
  - now apply (replace_from_plain _ (string_tail highlightPreTag)).
  - apply replace_from_match.
  - apply (replace_from_other_tag _ (string_tail highlightPreTag) _ _
             (string_tail highlightPostTag)); reflexivity.
Qed.

Lemma replace_post_markup (m : markup) (rest : string) :
  plain_markup m = true ->
  replace_from highlightPostTag spanClose (half_markup m +:+ rest) 0
  = html_markup m +:+ replace_from highlightPostTag spanClose rest 0.
Proof.
  destruct m as [s| |]; intros Hm.
  - now apply (replace_from_plain _ (string_tail highlightPostTag)).
  - apply (replace_from_other_tag _ (string_tail highlightPostTag) _ _
             (string_tail spanOpen)); reflexivity.
  - apply replace_from_match.
Qed.

(** X1. On text in which [<] occurs only in the two highlight tags,
    [sanitizeValue] turns every opening tag into the opening [span], every
    closing tag into [</span>], and leaves the text between them as it
    is. *)
Theorem sanitizeValue_markup (ms : list markup) :
  forallb plain_markup ms = true ->
  sanitizeValue (concat_markup raw_markup ms) = concat_markup html_markup ms.
Proof.
  intros Hms. unfold sanitizeValue, replace_all.
  assert (H1 : replace_from highlightPreTag spanOpen
                 (concat_markup raw_markup ms) 0
               = concat_markup half_markup ms).
  { induction ms as [|m ms IH]; [reflexivity|].
    cbn [forallb] in Hms. apply andb_true_iff in Hms. destruct Hms as [Hm Hms].
    cbn [concat_markup foldr]. rewrite (replace_pre_markup m _ Hm).
    f_equal. exact (IH Hms). }
  rewrite H1. clear H1.
  induction ms as [|m ms IH]; [reflexivity|].
  cbn [forallb] in Hms. apply andb_true_iff in Hms. destruct Hms as [Hm Hms].
  cbn [concat_markup foldr]. rewrite (replace_post_markup m _ Hm).
  f_equal. exact (IH Hms).
Qed.

Lemma sanitizeValue_markup_witness :
  sanitizeValue
    "Set <algolia-docsearch-suggestion--highlight>up</algolia-docsearch-suggestion--highlight> now"
  = "Set " +:+ spanOpen +:+ "up" +:+ spanClose +:+ " now".
Proof.
  apply (sanitizeValue_markup
           [Text "Set "; HighlightOpen; Text "up"; HighlightClose; Text " now"]).
  reflexivity.
Defined.

(** ** ['advance'] fired several times *)

(** X2. However often ['advance'] is dispatched before a response arrives,
    [lastPage] moves one page per dispatch and stops at the last page,
    [totalPages - 1]; the items, the query and the page count stay. *)
Theorem advance_repeated
    (searchQuery : string) (s : SearchResultState) (lp tp : Z) (n : nat) :
  lastPage s = Some lp ->
  totalPages s = Some tp ->
  let s' := Nat.iter n (fun st => reducer searchQuery st Advance) s in
  lastPage s' = Some (Z.min (lp + Z.of_nat n) (Z.max lp (tp - 1)))
  /\ totalPages s' = Some tp
  /\ items s' = items s
  /\ query s' = query s.
Proof.
  intros Hlp Htp. cbn zeta. induction n as [|n (IHl & IHt & IHi & IHq)].
  - change (Nat.iter 0 (fun st => reducer searchQuery st Advance) s) with s.
    rewrite Hlp, Z.add_0_r. repeat split; [|exact Htp].
    f_equal. lia.
  - change (Nat.iter (S n) (fun st => reducer searchQuery st Advance) s)
      with (reducer searchQuery
              (Nat.iter n (fun st => reducer searchQuery st Advance) s)
              Advance).
    set (st := Nat.iter n (fun st => reducer searchQuery st Advance) s) in *.
    cbn [reducer lastPage totalPages items query].
    rewrite IHl, IHt. cbn [to_number]. repeat split; [|assumption..].
    destruct (Z.gtb_spec tp
                (Z.min (lp + Z.of_nat n) (Z.max lp (tp - 1)) + 1));
      f_equal; lia.
Qed.

Lemma advance_repeated_witness :
  lastPage (Nat.iter 5 (fun st => reducer "foo" st Advance) sample_state)
  = Some 1.
Proof.
  apply (advance_repeated "foo" sample_state 0 2 5 eq_refl eq_refl).
Defined.

(** ** What makes the page fetch *)

(** X3. After ['reset'], ['loading'], an unknown action or a stale
    ['update'], the effect on [lastPage] makes no call on the helper.  After
    an accepted ['update'] it calls [makeSearch] exactly when the payload's
    page is not 0 and is not the [lastPage] the state already had, and then
    for that same page again: with a [filter_by] in the configuration this
    launches one search for the page, without one [makeSearch] throws
    before any search. *)
Theorem page_fetch_triggers
    (params : searchParameters) (locale : string)
    (versions : gmap string string)
    (searchQuery : string) (prevState : SearchResultState) :
  let effect := lastPage_effect params locale versions searchQuery in
  let next a := reducer searchQuery prevState a in
  effect prevState (next Reset) = no_call
  /\ effect prevState (next Loading) = no_call
  /\ (forall type : string, effect prevState (next (Unknown type)) = no_call)
  /\ (forall state : SearchResultState,
        query state <> Some searchQuery ->
        effect prevState (next (Update state)) = no_call)
  /\ (forall (state : SearchResultState) (p : Z),
        query state = Some searchQuery ->
        lastPage state = Some p ->
        effect prevState (next (Update state))
        = (if bool_decide (p = 0 \/ lastPage prevState = Some p)
           then no_call
           else makeSearch params locale versions searchQuery (Some p))
        /\ (is_Some (filter_by params) ->
            fetched_pages
              (run_calls (effect prevState (next (Update state)))) 0
            = if bool_decide (p = 0 \/ lastPage prevState = Some p)
              then [] else [p])
        /\ (filter_by params = None ->
            fetched_pages
              (run_calls (effect prevState (next (Update state)))) 0
            = [])).
Proof.
  cbn zeta. split; [|split; [|split; [|split]]].
  - unfold lastPage_effect. cbn [reducer lastPage initialSearchResultState].
    destruct (lastPage prevState); reflexivity.
  - unfold lastPage_effect. cbn [reducer lastPage].
    now rewrite bool_decide_eq_true_2.
  - intros type. unfold lastPage_effect. cbn [reducer].
    now rewrite bool_decide_eq_true_2.
  - intros state Hq. unfold lastPage_effect. cbn [reducer].
    assert (E : strict_neq (Some searchQuery) (query state) = true)
      by (apply strict_neq_true; congruence).
    rewrite E. now rewrite bool_decide_eq_true_2.
  - intros state p Hq Hp.
    assert (Heff :
      lastPage_effect params locale versions searchQuery prevState
        (reducer searchQuery prevState (Update state))
      = (if bool_decide (p = 0 \/ lastPage prevState = Some p)
         then no_call
         else makeSearch params locale versions searchQuery (Some p))).
    { unfold lastPage_effect. rewrite (update_accepted _ _ _ Hq).
      cbn [lastPage]. rewrite Hp.
      destruct (decide (lastPage prevState = Some p)) as [E | E].
      - rewrite bool_decide_eq_true_2 by exact E.
        rewrite bool_decide_eq_true_2 by (now right). reflexivity.
      - rewrite bool_decide_eq_false_2 by exact E.
        destruct (Z.eqb_spec p 0) as [-> | Hne].
        + rewrite bool_decide_eq_true_2 by (now left). reflexivity.
        + rewrite bool_decide_eq_false_2 by tauto. reflexivity. }
    rewrite Heff. split; [reflexivity|]. split.
    + intros Hf.
      destruct (bool_decide (p = 0 \/ lastPage prevState = Some p));
        [reflexivity | now apply makeSearch_fetches].
    + intros Hf.
      destruct (bool_decide (p = 0 \/ lastPage prevState = Some p));
        [reflexivity|].
      now rewrite (makeSearch_absent _ _ _ _ _ Hf).
Qed.

Lemma page_fetch_triggers_witness :
  lastPage_effect {| filter_by := Some "version:=2.0.0" |} "en"
    sample_versions "foo"
    sample_state (reducer "foo" sample_state (Update (sample_payload "bar" 1)))
  = no_call
  /\ fetched_pages
       (run_calls
          (lastPage_effect {| filter_by := Some "version:=2.0.0" |} "en"
             sample_versions "foo" sample_state
             (reducer "foo" sample_state (Update (sample_payload "foo" 1)))))
       0
     = [1].
Proof.
  destruct (page_fetch_triggers {| filter_by := Some "version:=2.0.0" |} "en"
              sample_versions "foo" sample_state)
    as (_ & _ & _ & Hstale & Hpage).
  split.
  - apply Hstale. discriminate.
  - destruct (Hpage (sample_payload "foo" 1) 1 eq_refl eq_refl)
      as (_ & Hsupplied & _).
    apply Hsupplied. eexists. reflexivity.
Defined.

(** ** The items of a response *)

Lemma shape_hit_None (new_URL : string -> option URL) (h : hit) :
  shape_hit new_URL h = None <-> new_URL (hit_url h) = None.
Proof.
  unfold shape_hit. destruct (new_URL (hit_url h)); split; congruence.
Qed.

(** X4. For a response with a non-empty query and an array of hits: the
    handler dispatches nothing (the mapping throws) exactly when the URL
    of some hit is not accepted by the [URL] constructor, one bad hit
    losing the whole response; otherwise it dispatches an ['update'] whose
    items are the shaped hits, one per hit and in the order of the hits. *)
Theorem on_result_items
    (new_URL : string -> option URL) (r : results) (hs : list hit) :
  r_query r <> "" ->
  hits r = Some hs ->
  (on_result new_URL r = None
   <-> exists h : hit, h ∈ hs /\ new_URL (hit_url h) = None)
  /\ ((forall h : hit, h ∈ hs -> is_Some (new_URL (hit_url h))) ->
      exists state : SearchResultState,
        on_result new_URL r = Some (Update state)
        /\ query state = Some (r_query r)
        /\ length (items state) = length hs
        /\ forall (i : nat) (h : hit),
             hs !! i = Some h ->
             exists item : ResultItem,
               items state !! i = Some item
               /\ shape_hit new_URL h = Some item).
Proof.
  intros Hq Hhits. unfold on_result. rewrite Hhits.
  destruct (String.eqb_spec (r_query r) "") as [E | _]; [contradiction|].
  cbn [orb instanceof_Array negb default from_option id].
  destruct (mapM (shape_hit new_URL) hs) as [its|] eqn:Hm.
  - split.
    + split; [discriminate|]. intros (h & Hin & Hbad).
      assert (Hnone : mapM (shape_hit new_URL) hs = None); [|congruence].
      apply mapM_None, Exists_exists. exists h. split; [exact Hin|].
      now apply shape_hit_None.
    + intros _. eexists. split; [reflexivity|]. cbn [query items].
      apply mapM_Some in Hm. split; [reflexivity|]. split.
      * symmetry. exact (Forall2_length _ _ _ Hm).
      * intros i h Hi.
        destruct (Forall2_lookup_l _ _ _ _ _ Hm Hi) as (item & Hitem & Hshape).
        exists item. split; assumption.
  - apply mapM_None, Exists_exists in Hm. destruct Hm as (h & Hin & Hbad).
    apply shape_hit_None in Hbad. split.
    + split; [|reflexivity]. intros _. exists h. split; assumption.
    + intros Hall. destruct (Hall h Hin) as [u Hu]. congruence.
Qed.

Lemma on_result_items_witness :
  exists state : SearchResultState,
    on_result sample_URL (sample_results "foo" 0) = Some (Update state)
    /\ query state = Some "foo"
    /\ length (items state) = 1%nat
    /\ forall (i : nat) (h : hit),
         [sample_hit] !! i = Some h ->
         exists item : ResultItem,
           items state !! i = Some item
           /\ shape_hit sample_URL h = Some item.
Proof.
  apply (proj2 (on_result_items sample_URL (sample_results "foo" 0)
                  [sample_hit] ltac:(discriminate) eq_refl)).
  intros h _. eexists. reflexivity.
Defined.

(** ** The shape of a result item *)

Lemma removelast_last_option {A : Type} (l : list A) :
  l = removelast l ++ option_list (last l).
Proof.
  induction l as [|x l IH]; [reflexivity|].
  destruct l as [|y l]; [reflexivity|].
  change (removelast (x :: y :: l)) with (x :: removelast (y :: l)).
  change (last (x :: y :: l)) with (last (y :: l)).
  cbn [app]. f_equal. exact IH.
Qed.

Lemma length_omap_le {A B : Type} (f : A -> option B) (l : list A) :
  (length (omap f l) <= length l)%nat.
Proof.
  induction l as [|x l IH]; [reflexivity|].
  cbn [omap list_omap length]. destruct (f x); cbn [length]; lia.
Qed.

Lemma titles_length (h : hit) : (length (titles h) <= 7)%nat.
Proof.
  rewrite titles_levels, length_fmap.
  exact (length_omap_le (nonempty_level h) (seq 0 7)).
Qed.

Lemma titles_nonempty (h : hit) (t : string) : t ∈ titles h -> t <> "".
Proof.
  rewrite titles_levels. intros Ht.
  apply list_elem_of_fmap in Ht. destruct Ht as (v & -> & Hv).
  apply list_elem_of_omap in Hv. destruct Hv as (lvl & _ & Hlvl).
  unfold nonempty_level in Hlvl.
  destruct (_highlightResult h !! level_key lvl) as [hr|]; [|discriminate].
  destruct (String.eqb_spec (value hr) "") as [|Hne]; [discriminate|].
  injection Hlvl as <-. intros E. apply Hne. now apply sanitizeValue_empty.
Qed.

Lemma summary_of_empty (snippet : snippetResult) :
  summary_of snippet = "" <-> content snippet = None.
Proof.
  unfold summary_of. destruct (content snippet) as [c|].
  - split; [|discriminate]. destruct (sanitizeValue (value c)); discriminate.
  - split; reflexivity.
Qed.

(** X5. Whatever the hit, the item shaped from it splits the hit's non-empty
    levels between breadcrumbs and title: the breadcrumbs followed by the
    title are those levels, so there are at most 6 breadcrumbs, there is
    none when there is no title, and neither the title nor a breadcrumb is
    the empty string.  The summary is empty exactly when the hit has no
    content snippet. *)
Theorem shape_hit_structure
    (new_URL : string -> option URL) (h : hit) (item : ResultItem) :
  shape_hit new_URL h = Some item ->
  titles h = breadcrumbs item ++ option_list (title item)
  /\ (length (breadcrumbs item) <= 6)%nat
  /\ (title item = None -> breadcrumbs item = [])
  /\ (forall t : string,
        title item = Some t \/ t ∈ breadcrumbs item -> t <> "")
  /\ (summary item <> ""
      <-> exists (snippet : snippetResult) (c : highlight),
            _snippetResult h = Some snippet /\ content snippet = Some c).
Proof.
  unfold shape_hit. destruct (new_URL (hit_url h)) as [u|]; [|discriminate].
  intros [= <-]. cbn [title breadcrumbs summary].
  pose proof (removelast_last_option (titles h)) as Hsplit.
  pose proof (titles_length h) as Hlen.
  split; [exact Hsplit|]. split; [|split; [|split]].
  - rewrite Hsplit, length_app in Hlen.
    destruct (last (titles h)) as [t|] eqn:Hlast.
    + change (length (option_list (Some t))) with 1%nat in Hlen. lia.
    + apply last_None in Hlast. rewrite Hlast.
      change (length (removelast (@nil string))) with 0%nat. lia.
  - intros Hlast. apply last_None in Hlast. now rewrite Hlast.
  - intros t Ht. apply (titles_nonempty h). rewrite Hsplit.
    apply elem_of_app. destruct Ht as [-> | Ht]; [right | now left].
    cbn. apply list_elem_of_here.
  - rewrite summary_of_empty. destruct (_snippetResult h) as [[[c|]]|]; cbn.
    + split; [eauto | discriminate].
    + split; [congruence | intros (sn & c & [= <-] & Hc); discriminate].
    + split; [congruence | intros (sn & c & Hsn & _); discriminate].
Qed.

Lemma shape_hit_structure_witness :
  titles sample_hit = breadcrumbs sample_item ++ option_list (title sample_item)
  /\ (length (breadcrumbs sample_item) <= 6)%nat.
Proof.
  destruct (shape_hit_structure sample_URL sample_hit sample_item)
    as (Hsplit & Hlen & _).
  - vm_compute. reflexivity.
  - split; [exact Hsplit | exact Hlen].
Defined.

(** X6. The article rendered for a shaped hit: the link has no title exactly
    when the hit has no non-empty level, the breadcrumbs [nav] is left out
    exactly when it has at most one, and the summary paragraph is left out
    exactly when it has no content snippet. *)
Theorem rendered_article
    (new_URL : string -> option URL) (h : hit) (item : ResultItem) :
  shape_hit new_URL h = Some item ->
  let a := render_item item in
  (article_title a = None <-> titles h = [])
  /\ (article_breadcrumbs a = None <-> (length (titles h) <= 1)%nat)
  /\ (forall crumbs : list string,
        article_breadcrumbs a = Some crumbs ->
        titles h = crumbs ++ option_list (article_title a))
  /\ (article_summary a = None
      <-> forall snippet : snippetResult,
            _snippetResult h = Some snippet -> content snippet = None).
Proof.
  unfold shape_hit. destruct (new_URL (hit_url h)) as [u|]; [|discriminate].
  intros [= <-]. cbn zeta. unfold render_item.
  cbn [title breadcrumbs summary url article_title article_breadcrumbs
       article_summary].
  pose proof (removelast_last_option (titles h)) as Hsplit.
  split; [apply last_None|]. split; [|split].
  - destruct (Nat.ltb_spec 0 (length (removelast (titles h)))) as [Hlt | Hle].
    + split; [discriminate|]. intros Hlen. exfalso.
      rewrite Hsplit, length_app in Hlen.
      destruct (last (titles h)) as [t|] eqn:Hlast.
      * change (length (option_list (Some t))) with 1%nat in Hlen. lia.
      * apply last_None in Hlast. rewrite Hlast in Hlt.
        change (length (removelast (@nil string))) with 0%nat in Hlt. lia.
    + split; [|reflexivity]. intros _.
      rewrite Hsplit, length_app.
      assert (Hopt : (length (option_list (last (titles h))) <= 1)%nat)
        by (destruct (last (titles h)); cbn [option_list option_rect length]; lia).
      lia.
  - intros crumbs.
    destruct (0 <? length (removelast (titles h)))%nat; [|discriminate].
    intros [= <-]. exact Hsplit.
  - cbn [truthy].
    destruct (String.eqb_spec
                (summary_of (default {| content := None |} (_snippetResult h)))
                "") as [E | E]; cbn [negb].
    + apply summary_of_empty in E. split; [|reflexivity].
      intros _ snippet Hs. rewrite Hs in E. exact E.
    + split; [discriminate|]. intros Hnone. exfalso. apply E.
      apply summary_of_empty.
      destruct (_snippetResult h) as [snippet|]; [|reflexivity].
      now apply Hnone.
Qed.

Lemma rendered_article_witness :
  article_breadcrumbs (render_item sample_item) = Some ["Docs"]
  /\ titles sample_hit
     = ["Docs"] ++ option_list (article_title (render_item sample_item)).
Proof.
  split; [reflexivity|].
  destruct (rendered_article sample_URL sample_hit sample_item)
    as (_ & _ & Hcrumbs & _).
  - vm_compute. reflexivity.
  - apply Hcrumbs. reflexivity.
Defined.

(** ** The versions of the docs plugins *)

Lemma foldl_initial_thrown (l : list (string * docsData)) :
  foldl initial_step None l = None.
Proof. induction l as [|e l IH]; [reflexivity | exact IH]. Qed.

Lemma foldl_initial_None (l : list (string * docsData))
    (acc : gmap string string) :
  foldl initial_step (Some acc) l = None
  <-> exists e, e ∈ l /\ versions e.2 = [].
Proof.
  revert acc. induction l as [|e l IH]; intros acc.
  - split; [discriminate|]. intros (e & He & _). inversion He.
  - cbn [foldl]. destruct (versions e.2) as [|v rest] eqn:Hv.
    + rewrite foldl_initial_thrown. split; [|reflexivity].
      intros _. exists e. split; [apply list_elem_of_here | exact Hv].
    + rewrite IH. split.
      * intros (e' & He' & Hnil). exists e'.
        split; [now apply list_elem_of_further | exact Hnil].
      * intros (e' & He' & Hnil). apply elem_of_cons in He'.
        destruct He' as [-> | He']; [congruence|]. eauto.
Qed.

Lemma foldl_initial_Some (l : list (string * docsData))
    (acc m : gmap string string) :
  NoDup l.*1 ->
  foldl initial_step (Some acc) l = Some m ->
  forall (id v : string),
    m !! id = Some v
    <-> (exists d ver rest,
            (id, d) ∈ l /\ versions d = ver :: rest /\ name ver = v)
        \/ ((id ∉ l.*1) /\ acc !! id = Some v).
Proof.
  revert acc. induction l as [|[id0 d0] l IH]; intros acc Hnd Hfold id v.
  - injection Hfold as <-. split.
    + intros H. right. split; [apply not_elem_of_nil | exact H].
    + intros [(d & ver & rest & Hin & _) | [_ H]]; [inversion Hin | exact H].
  - cbn [foldl fst snd] in Hfold. cbn [fmap list_fmap fst] in Hnd.
    apply NoDup_cons in Hnd. destruct Hnd as [Hfresh Hnd].
    destruct (versions d0) as [|v0 rest0] eqn:Hv0.
    { rewrite foldl_initial_thrown in Hfold. discriminate. }
    rewrite (IH _ Hnd Hfold id v). cbn [fmap list_fmap fst].
    destruct (decide (id = id0)) as [-> | Hne].
    + rewrite lookup_insert_eq. split.
      * intros [(d & ver & rest & Hin & _) | [_ [= <-]]].
        -- exfalso. apply Hfresh. apply list_elem_of_fmap.
           exists (id0, d). split; [reflexivity | exact Hin].
        -- left. exists d0, v0, rest0.
           split; [apply list_elem_of_here | split; [exact Hv0 | reflexivity]].
      * intros [(d & ver & rest & Hin & Hv & Hname) | [Hnot _]].
        -- apply elem_of_cons in Hin. destruct Hin as [[= <-] | Hin].
           ++ right. split; [exact Hfresh|]. congruence.
           ++ exfalso. apply Hfresh. apply list_elem_of_fmap.
              exists (id0, d). split; [reflexivity | exact Hin].
        -- exfalso. apply Hnot. apply list_elem_of_here.
    + rewrite lookup_insert_ne by congruence. split.
      * intros [(d & ver & rest & Hin & Hv & Hname) | [Hnot Hacc]].
        -- left. exists d, ver, rest.
           split; [now apply list_elem_of_further | split; assumption].
        -- right. split; [|exact Hacc]. intros Hin.
           apply elem_of_cons in Hin. destruct Hin as [-> | Hin]; tauto.
      * intros [(d & ver & rest & Hin & Hv & Hname) | [Hnot Hacc]].
        -- apply elem_of_cons in Hin. destruct Hin as [[= -> ->] | Hin];
             [congruence|].
           left. exists d, ver, rest. split; [exact Hin | split; assumption].
        -- right. split; [|exact Hacc]. intros Hin. apply Hnot.
           now apply list_elem_of_further.
Qed.

(** The initial selection, by plugin. *)
Lemma initialSearchVersions_lookup (allDocsData : gmap string docsData)
    (s : gmap string string) :
  initialSearchVersions allDocsData = Some s ->
  forall (id v : string),
    s !! id = Some v
    <-> exists d ver rest,
          allDocsData !! id = Some d /\ versions d = ver :: rest
          /\ name ver = v.
Proof.
  intros Hs id v. unfold initialSearchVersions in Hs.
  rewrite (foldl_initial_Some _ _ _ (NoDup_fst_map_to_list allDocsData) Hs).
  rewrite lookup_empty. split.
  - intros [(d & ver & rest & Hin & H) | [_ H]]; [|discriminate].
    apply elem_of_map_to_list in Hin. eauto.
  - intros (d & ver & rest & Hl & H). left. exists d, ver, rest.
    split; [now apply elem_of_map_to_list | exact H].
Qed.

Lemma initialSearchVersions_None (allDocsData : gmap string docsData) :
  initialSearchVersions allDocsData = None
  <-> exists (id : string) (d : docsData),
        allDocsData !! id = Some d /\ versions d = [].
Proof.
  unfold initialSearchVersions. rewrite foldl_initial_None. split.
  - intros ([id d] & Hin & Hnil). apply elem_of_map_to_list in Hin. eauto.
  - intros (id & d & Hl & Hnil). exists (id, d).
    split; [now apply elem_of_map_to_list | exact Hnil].
Qed.

(** X7. Building the initial selection throws exactly when some plugin has no
    version; otherwise every plugin, versioned or not, starts on the name
    of its first version, and nothing else is selected. *)
Theorem initialSearchVersions_spec (allDocsData : gmap string docsData) :
  (initialSearchVersions allDocsData = None
   <-> exists (id : string) (d : docsData),
         allDocsData !! id = Some d /\ versions d = [])
  /\ forall s : gmap string string,
       initialSearchVersions allDocsData = Some s ->
       forall (id v : string),
         s !! id = Some v
         <-> exists d ver rest,
               allDocsData !! id = Some d /\ versions d = ver :: rest
               /\ name ver = v.
Proof.
  split; [apply initialSearchVersions_None | apply initialSearchVersions_lookup].
Qed.

Lemma initialSearchVersions_spec_witness :
  initialSearchVersions sample_docs = Some sample_versions
  /\ sample_versions !! "community" = Some "current".
Proof.
  assert (H : initialSearchVersions sample_docs = Some sample_versions)
    by (vm_compute; reflexivity).
  split; [exact H|].
  apply (proj2 (initialSearchVersions_spec sample_docs) sample_versions H).
  eexists _, _, _. split; [vm_compute; reflexivity|]. split; reflexivity.
Defined.

Lemma versionedPluginEntries_elem (allDocsData : gmap string docsData)
    (id : string) (d : docsData) :
  (id, d) ∈ versionedPluginEntries allDocsData
  <-> allDocsData !! id = Some d /\ versioned d = true.
Proof.
  unfold versionedPluginEntries.
  rewrite list_elem_of_In, filter_In, <- list_elem_of_In, elem_of_map_to_list.
  reflexivity.
Qed.

(** What a rendered select is made of. *)
Lemma select_list_elem (allDocsData : gmap string docsData)
    (s : gmap string string) (sel : select_element) :
  sel ∈ SearchVersionSelectList allDocsData s ->
  exists d : docsData,
    allDocsData !! select_key sel = Some d
    /\ versioned d = true
    /\ select_defaultValue sel = s !! select_key sel
    /\ option_value <$> select_options sel = name <$> versions d.
Proof.
  unfold SearchVersionSelectList. intros Hsel.
  apply list_elem_of_fmap in Hsel. destruct Hsel as ([id d] & -> & Hin).
  apply versionedPluginEntries_elem in Hin. destruct Hin as [Hl Hv].
  exists d. cbn [select_key select_defaultValue select_options fst snd].
  split; [exact Hl|]. split; [exact Hv|]. split; [reflexivity|].
  rewrite fmap_imap. apply imap_const.
Qed.

(** X8. The version column is shown ([versioningEnabled]) exactly when it has
    a select to show; the selects are those of the plugins with more than
    one version, and each select offers the names of all the versions of
    its plugin, in order, starting on the plugin's current selection. *)
Theorem version_selects (allDocsData : gmap string docsData)
    (s : gmap string string) :
  (versioningEnabled allDocsData = true
   <-> SearchVersionSelectList allDocsData s <> [])
  /\ (forall id : string,
        (exists sel, sel ∈ SearchVersionSelectList allDocsData s
                     /\ select_key sel = id)
        <-> exists d, allDocsData !! id = Some d
                      /\ (1 < length (versions d))%nat)
  /\ (forall sel : select_element,
        sel ∈ SearchVersionSelectList allDocsData s ->
        exists d : docsData,
          allDocsData !! select_key sel = Some d
          /\ select_defaultValue sel = s !! select_key sel
          /\ option_value <$> select_options sel = name <$> versions d).
Proof.
  split; [|split].
  - unfold versioningEnabled. rewrite existsb_exists. split.
    + intros ([id d] & Hin & Hv) Hnil.
      assert (Hentry : (id, d) ∈ versionedPluginEntries allDocsData).
      { apply versionedPluginEntries_elem. split; [|exact Hv].
        now apply elem_of_map_to_list, list_elem_of_In. }
      unfold SearchVersionSelectList in Hnil.
      apply fmap_nil_inv in Hnil. rewrite Hnil in Hentry. inversion Hentry.
    + intros Hne. unfold SearchVersionSelectList in Hne.
      destruct (versionedPluginEntries allDocsData) as [|[id d] l] eqn:E;
        [contradiction|].
      assert (Hentry : (id, d) ∈ versionedPluginEntries allDocsData)
        by (rewrite E; apply list_elem_of_here).
      apply versionedPluginEntries_elem in Hentry. destruct Hentry as [Hl Hv].
      exists (id, d). split; [|exact Hv].
      now apply list_elem_of_In, elem_of_map_to_list.
  - intros id. split.
    + intros (sel & Hsel & <-).
      destruct (select_list_elem _ _ _ Hsel) as (d & Hl & Hv & _).
      exists d. split; [exact Hl|]. now apply Nat.ltb_lt.
    + intros (d & Hl & Hlen).
      assert (Hentry : (id, d) ∈ versionedPluginEntries allDocsData).
      { apply versionedPluginEntries_elem. split; [exact Hl|].
        now apply Nat.ltb_lt. }
      eexists. split.
      * unfold SearchVersionSelectList. apply list_elem_of_fmap.
        exists (id, d). split; [reflexivity | exact Hentry].
      * reflexivity.
  - intros sel Hsel.
    destruct (select_list_elem _ _ _ Hsel) as (d & Hl & _ & Hdef & Hopts).
    exists d. split; [exact Hl|]. split; assumption.
Qed.

Lemma version_selects_witness :
  SearchVersionSelectList sample_docs sample_versions <> []
  /\ exists sel : select_element,
       sel ∈ SearchVersionSelectList sample_docs sample_versions
       /\ select_key sel = "default".
Proof.
  split.
  - apply (proj1 (version_selects sample_docs sample_versions)).
    vm_compute. reflexivity.
  - apply (proj1 (proj2 (version_selects sample_docs sample_versions))
             "default").
    eexists. split; [vm_compute; reflexivity|]. vm_compute. lia.
Defined.

(** Every reachable selection gives each plugin one of its own versions,
    and gives nothing to an id that is no plugin. *)
Lemma reachable_versions_inv (allDocsData : gmap string docsData)
    (s : gmap string string) :
  reachable_versions allDocsData s ->
  forall id : string,
    match allDocsData !! id with
    | Some d => exists ver, ver ∈ versions d /\ s !! id = Some (name ver)
    | None => s !! id = None
    end.
Proof.
  induction 1 as [s Hinit | s sel opt _ IH Hsel Hopt]; intros id.
  - destruct (allDocsData !! id) as [d|] eqn:Hl.
    + destruct (versions d) as [|ver rest] eqn:Hv.
      * assert (Hnone : initialSearchVersions allDocsData = None)
          by (apply initialSearchVersions_None; eauto).
        congruence.
      * exists ver. split; [apply list_elem_of_here|].
        apply (initialSearchVersions_lookup _ _ Hinit).
        exists d, ver, rest. split; [exact Hl | split; [exact Hv | reflexivity]].
    + destruct (s !! id) as [v|] eqn:Hs; [|reflexivity].
      apply (initialSearchVersions_lookup _ _ Hinit) in Hs.
      destruct Hs as (d & _ & _ & Hd & _). congruence.
  - destruct (select_list_elem _ _ _ Hsel) as (d0 & Hl0 & _ & _ & Hopts).
    assert (Hval : option_value opt ∈ name <$> versions d0).
    { rewrite <- Hopts. apply list_elem_of_fmap. eauto. }
    apply list_elem_of_fmap in Hval. destruct Hval as (ver & Hname & Hver).
    unfold setSearchVersion. specialize (IH id).
    destruct (decide (select_key sel = id)) as [<- | Hne].
    + rewrite Hl0, lookup_insert_eq. exists ver. split; [exact Hver|].
      now rewrite Hname.
    + rewrite lookup_insert_ne by exact Hne. exact IH.
Qed.

(** X9. Whatever the user chose in the version menus, starting from the
    initial selection, the selection holds for every docs plugin
    (versioned or not) the name of one of that plugin's own versions, and
    holds nothing for an id that is no plugin. *)
Theorem reachable_versions_known
    (allDocsData : gmap string docsData) (s : gmap string string) :
  reachable_versions allDocsData s ->
  (forall (id : string) (d : docsData),
     allDocsData !! id = Some d ->
     exists ver : version, ver ∈ versions d /\ s !! id = Some (name ver))
  /\ (forall (id v : string),
        s !! id = Some v ->
        exists (d : docsData) (ver : version),
          allDocsData !! id = Some d /\ ver ∈ versions d /\ name ver = v)
  /\ (forall id : string, allDocsData !! id = None -> s !! id = None).
Proof.
  intros Hreach. split; [|split].
  - intros id d Hl. pose proof (reachable_versions_inv _ _ Hreach id) as H.
    now rewrite Hl in H.
  - intros id v Hs. pose proof (reachable_versions_inv _ _ Hreach id) as H.
    destruct (allDocsData !! id) as [d|]; [|congruence].
    destruct H as (ver & Hver & Hs'). exists d, ver.
    split; [reflexivity|]. split; [exact Hver | congruence].
  - intros id Hl. pose proof (reachable_versions_inv _ _ Hreach id) as H.
    now rewrite Hl in H.
Qed.

Lemma reachable_versions_known_witness :
  exists ver : version,
    ver ∈ [ {| name := "2.0.0"; label := "2.0.0" |};
            {| name := "1.0.0"; label := "1.0.0" |} ]
    /\ setSearchVersion "default" "1.0.0" sample_versions !! "default"
       = Some (name ver).
Proof.
  assert (Hinit : reachable_versions sample_docs sample_versions)
    by (apply reachable_initial; vm_compute; reflexivity).
  assert (Hsel :
    {| select_key := "default";
       select_defaultValue := Some "2.0.0";
       select_options :=
         [ {| option_key := 0; option_label := "2.0.0"; option_value := "2.0.0" |};
           {| option_key := 1; option_label := "1.0.0"; option_value := "1.0.0" |} ] |}
    ∈ SearchVersionSelectList sample_docs sample_versions)
    by (vm_compute; apply list_elem_of_here).
  assert (Hopt :
    {| option_key := 1; option_label := "1.0.0"; option_value := "1.0.0" |}
    ∈ [ {| option_key := 0; option_label := "2.0.0"; option_value := "2.0.0" |};
        {| option_key := 1; option_label := "1.0.0"; option_value := "1.0.0" |} ])
    by (apply list_elem_of_further, list_elem_of_here).
  apply (proj1 (reachable_versions_known sample_docs _
                  (reachable_change sample_docs sample_versions _ _
                     Hinit Hsel Hopt))
           "default"
           {| versions := [ {| name := "2.0.0"; label := "2.0.0" |};
                            {| name := "1.0.0"; label := "1.0.0" |} ] |}).
  vm_compute. reflexivity.
Defined.

(** ** A query change, and the page while the response is awaited *)

Lemma dispatch_stale (searchQuery : string) (s : SearchResultState)
    (stale : list SearchResultState) :
  Forall (fun state => query state <> Some searchQuery) stale ->
  dispatch_all searchQuery s (Update <$> stale) = s.
Proof.
  unfold dispatch_all. induction 1 as [|state stale Hq _ IH]; [reflexivity|].
  cbn [fmap list_fmap foldl reducer].
  assert (E : strict_neq (Some searchQuery) (query state) = true)
    by (apply strict_neq_true; congruence).
  rewrite E. exact IH.
Qed.

(** X10. A query change clears the state whatever it held: after the
    effect's dispatches the state is the initial one, with the loading flag
    set when the query is not empty.  For the empty query no timer is set
    and no call is made.  For another query the timer runs [makeSearch] for
    page 0: with a [filter_by] in the configuration it sets the query, sets
    page 0 and searches, once; without one its first call throws, no call
    is carried out and nothing is searched. *)
Theorem query_effect_state
    (params : searchParameters) (locale : string)
    (versions : gmap string string) (searchQuery : string)
    (prevState : SearchResultState) :
  let e := query_effect params locale versions searchQuery in
  dispatch_all searchQuery prevState (effect_dispatched e)
  = {| items := []; query := None; totalResults := None;
       totalPages := None; lastPage := None; hasMore := None;
       loading := if String.eqb searchQuery "" then None else Some true |}
  /\ effect_scheduled e
     = (if String.eqb searchQuery "" then no_call
        else makeSearch params locale versions searchQuery None)
  /\ (is_Some (filter_by params) ->
      effect_scheduled e
      = {| run_calls :=
             if String.eqb searchQuery "" then []
             else [SetQuery searchQuery; SetPage 0; Search];
           run_thrown := false |})
  /\ (filter_by params = None ->
      effect_scheduled e
      = {| run_calls := [];
           run_thrown := negb (String.eqb searchQuery "") |}).
Proof.
  cbn zeta. unfold query_effect, dispatch_all.
  cbn [effect_dispatched effect_scheduled truthy].
  destruct (String.eqb_spec searchQuery "") as [E | E]; cbn [negb].
  - split; [reflexivity|]. split; [reflexivity|]. split; reflexivity.
  - split; [reflexivity|]. split; [reflexivity|]. split.
    + intros Hf. now rewrite (makeSearch_supplied _ _ _ _ _ Hf).
    + intros Hf. now rewrite (makeSearch_absent _ _ _ _ _ Hf).
Qed.

Lemma query_effect_state_witness :
  effect_scheduled
    (query_effect {| filter_by := Some "version:=2.0.0" |} "en"
       sample_versions "foo")
  = {| run_calls := [SetQuery "foo"; SetPage 0; Search];
       run_thrown := false |}
  /\ effect_scheduled
       (query_effect {| filter_by := None |} "en" sample_versions "foo")
     = {| run_calls := []; run_thrown := true |}.
Proof.
  split.
  - apply (proj1 (proj2 (proj2 (query_effect_state
                                  {| filter_by := Some "version:=2.0.0" |}
                                  "en" sample_versions "foo" sample_state)))).
    eexists. reflexivity.
  - apply (proj2 (proj2 (proj2 (query_effect_state {| filter_by := None |}
                                  "en" sample_versions "foo" sample_state)))).
    reflexivity.
Defined.

(** A response for another query that carries a query and an array of hits
    leaves the state as it is: either shaping a hit throws and nothing is
    dispatched, or the ['update'] is stale. *)
Lemma handle_result_stale (new_URL : string -> option URL)
    (searchQuery : string) (s : SearchResultState) (r : results) :
  r_query r <> searchQuery ->
  r_query r <> "" ->
  is_Some (hits r) ->
  handle_result new_URL searchQuery s r = s.
Proof.
  intros Hother Hne [hs Hhits]. unfold handle_result, on_result.
  rewrite Hhits.
  destruct (String.eqb_spec (r_query r) "") as [E | _]; [contradiction|].
  cbn [orb instanceof_Array negb default from_option id].
  destruct (mapM (shape_hit new_URL) hs) as [its|]; [|reflexivity].
  cbn [reducer query].
  assert (E : strict_neq (Some searchQuery) (Some (r_query r)) = true)
    by (apply strict_neq_true; congruence).
  now rewrite E.
Qed.

Lemma handle_results_stale (new_URL : string -> option URL)
    (searchQuery : string) (s : SearchResultState) (rs : list results) :
  Forall (fun r => r_query r <> searchQuery /\ r_query r <> ""
                   /\ is_Some (hits r)) rs ->
  handle_results new_URL searchQuery s rs = s.
Proof.
  unfold handle_results.
  induction 1 as [|r rs (Hother & Hne & Hhits) _ IH]; [reflexivity|].
  cbn [foldl]. rewrite (handle_result_stale _ _ _ _ Hother Hne Hhits).
  exact IH.
Qed.

(** X11. After a change to a non-empty query, whatever the page showed
    before and however many responses for other queries arrive meanwhile,
    each with a query and an array of hits, the page shows the spinner
    alone: no article, no count, no "No results were found", no sentinel.
    A response with an empty query or without an array of hits ends this,
    whatever query it answers: the spinner goes and "No results were
    found" is shown. *)
Theorem pending_view
    (new_URL : string -> option URL)
    (params : searchParameters) (locale : string)
    (versions : gmap string string) (searchQuery : string)
    (prevState : SearchResultState) (rs : list results) :
  searchQuery <> "" ->
  Forall (fun r => r_query r <> searchQuery /\ r_query r <> ""
                   /\ is_Some (hits r)) rs ->
  let pending :=
    handle_results new_URL searchQuery
      (dispatch_all searchQuery prevState
         (effect_dispatched (query_effect params locale versions searchQuery)))
      rs in
  render searchQuery pending
  = {| view_documentsFound := None;
       view_articles := [];
       view_noResults := false;
       view_spinner := true;
       view_loader := false |}
  /\ forall r : results,
       r_query r = "" \/ hits r = None ->
       render searchQuery (handle_result new_URL searchQuery pending r)
       = {| view_documentsFound := None;
            view_articles := [];
            view_noResults := true;
            view_spinner := false;
            view_loader := false |}.
Proof.
  intros Hq Hstale. cbn zeta. rewrite (handle_results_stale _ _ _ _ Hstale).
  assert (E : String.eqb searchQuery "" = false) by now apply String.eqb_neq.
  split.
  - unfold query_effect, dispatch_all, render.
    cbn [effect_dispatched truthy]. rewrite E. reflexivity.
  - intros r Hbad.
    assert (Hreset : on_result new_URL r = Some Reset).
    { unfold on_result. destruct Hbad as [-> | ->]; [reflexivity|].
      cbn [instanceof_Array negb]. now rewrite orb_true_r. }
    unfold handle_result. rewrite Hreset.
    unfold render. cbn [reducer truthy]. rewrite E. reflexivity.
Qed.

Lemma pending_view_witness :
  view_spinner
    (render "foo"
       (handle_results sample_URL "foo"
          (dispatch_all "foo" sample_state
             (effect_dispatched
                (query_effect {| filter_by := Some "version:=2.0.0" |} "en"
                   sample_versions "foo")))
          [sample_results "bar" 0; sample_results "fo" 1]))
  = true.
Proof.
  destruct (pending_view sample_URL {| filter_by := Some "version:=2.0.0" |}
              "en" sample_versions "foo" sample_state
              [sample_results "bar" 0; sample_results "fo" 1])
    as [Hview _].
  - discriminate.
  - repeat constructor; try discriminate; eexists; reflexivity.
  - cbn zeta in Hview. rewrite Hview. reflexivity.
Defined.

(** ** The page after a response *)

(** X12. When the response for the live query is applied: its items replace the
    shown ones on page 0 and follow them on a later page, the spinner is
    off, the sentinel is shown exactly when the response says more pages
    exist, "No results were found" exactly when no item is shown, and the
    count exactly when [nbHits] is not 0. *)
Theorem response_view
    (new_URL : string -> option URL) (r : results) (searchQuery : string)
    (prevState state : SearchResultState) :
  r_query r = searchQuery ->
  on_result new_URL r = Some (Update state) ->
  let next := reducer searchQuery prevState (Update state) in
  let v := render searchQuery next in
  items next
  = (if (page r =? 0)%Z then items state else items prevState ++ items state)
  /\ loading next = Some false
  /\ view_spinner v = false
  /\ view_loader v = (nbPages r >? page r + 1)
  /\ (view_noResults v = true <-> items next = [])
  /\ view_articles v = render_item <$> items next
  /\ view_documentsFound v
     = (if (nbHits r =? 0)%Z then None else Some (nbHits r)).
Proof.
  intros Hq Hres.
  assert (Hne : String.eqb searchQuery "" = false).
  { unfold on_result in Hres. rewrite Hq in Hres.
    destruct (String.eqb searchQuery ""); [discriminate | reflexivity]. }
  destruct (on_result_update _ _ _ Hres) as (its & _ & ->).
  cbn zeta. rewrite update_accepted by (cbn; congruence).
  cbn [items query totalResults totalPages lastPage hasMore loading].
  unfold render.
  cbn [items query totalResults totalPages lastPage hasMore loading
       view_spinner view_loader view_noResults view_articles
       view_documentsFound truthy truthy_bool truthy_number].
  rewrite Hne.
  set (shown := if bool_decide (Some (page r) = Some 0) then its
                else items prevState ++ its).
  split.
  { subst shown. destruct (Z.eqb_spec (page r) 0) as [E | E].
    - rewrite E. reflexivity.
    - rewrite bool_decide_eq_false_2; [reflexivity | congruence]. }
  split; [reflexivity|]. split; [apply andb_false_r|].
  split; [reflexivity|]. split; [|split].
  - destruct shown; cbn; split; congruence.
  - destruct shown; reflexivity.
  - destruct (nbHits r =? 0)%Z; reflexivity.
Qed.

Lemma response_view_witness :
  view_loader
    (render "foo"
       (reducer "foo" initialSearchResultState
          (Update (sample_payload "foo" 0))))
  = (2 >? 0 + 1)
  /\ view_documentsFound
       (render "foo"
          (reducer "foo" initialSearchResultState
             (Update (sample_payload "foo" 0))))
     = Some 16.
Proof.
  destruct (response_view sample_URL (sample_results "foo" 0) "foo"
              initialSearchResultState (sample_payload "foo" 0) eq_refl)
    as (_ & _ & _ & Hloader & _ & _ & Hcount).
  - vm_compute. reflexivity.
  - split; [exact Hloader | exact Hcount].
Defined.

(** X13. A response that is not an array of hits, or that echoes the empty
    query, is shown like a search without results: whatever was on the
    page, a non-empty live query then shows "No results were found" and
    nothing else. *)
Theorem malformed_response_view
    (new_URL : string -> option URL) (r : results) (searchQuery : string)
    (prevState : SearchResultState) :
  searchQuery <> "" ->
  r_query r = "" \/ hits r = None ->
  exists a : action,
    on_result new_URL r = Some a
    /\ render searchQuery (reducer searchQuery prevState a)
       = {| view_documentsFound := None;
            view_articles := [];
            view_noResults := true;
            view_spinner := false;
            view_loader := false |}.
Proof.
  intros Hq Hbad. exists Reset. split.
  - unfold on_result. destruct Hbad as [-> | ->]; [reflexivity|].
    cbn [instanceof_Array negb]. now rewrite orb_true_r.
  - assert (E : String.eqb searchQuery "" = false) by now apply String.eqb_neq.
    unfold render. cbn [reducer truthy]. rewrite E. reflexivity.
Qed.

Lemma malformed_response_view_witness :
  exists a : action,
    on_result sample_URL
      {| r_query := "foo"; hits := None; page := 0; nbHits := 0; nbPages := 0 |}
    = Some a
    /\ render "foo" (reducer "foo" sample_state a)
       = {| view_documentsFound := None;
            view_articles := [];
            view_noResults := true;
            view_spinner := false;
            view_loader := false |}.
Proof.
  apply (malformed_response_view sample_URL
           {| r_query := "foo"; hits := None; page := 0;
              nbHits := 0; nbPages := 0 |}
           "foo" sample_state).
  - discriminate.
  - right. reflexivity.
Defined.
